(** * Network Radar: check execution, reporting, ingestion and storage

    A shallow embedding of [app.py] (collector and stand-alone scheduler)
    and [agent.py] (remote agent) together with the properties of the
    check pipeline, the reporter's retry loop, the ingestion endpoint and
    the queries of the [checks] table.

    Conventions.
    - Wall-clock latencies are finite numbers; they are rationals here.
    - What the operating system or the network answers to a probe is an
      input of the model (an _observation_); every [return] and every
      [except] clause of a probe is one branch of its embedding.
    - A Python call either returns or raises: [py A]. *)

From Stdlib Require Import List ZArith QArith Qround Bool String Ascii Lia.
From Stdlib Require Import Permutation Sorted DecimalString Lqa.
Import ListNotations.
Set Warnings "-register-all".
Open Scope string_scope.
Open Scope Z_scope.

(** ** Python values and control flow *)

(** The exception classes the [except] clauses of the sources tell apart;
    everything else is [OtherException]. *)
Inductive exn_class :=
| TimeoutExpired        (* subprocess.TimeoutExpired *)
| FileNotFoundError
| SocketTimeout         (* socket.timeout *)
| SocketGaierror        (* socket.gaierror *)
| AsyncioTimeoutError   (* asyncio.TimeoutError *)
| ClientError           (* aiohttp.ClientError *)
| AttributeError
| TypeError
| InterfaceError        (* sqlite3: parameter of unsupported type *)
| OverflowError
| OtherException.

(** An exception: its class and [str(e)]. *)
Record exn := Exn { cls : exn_class; text : string }.

(** Result of a call: a value, or a raised exception. *)
Inductive py (A : Type) : Type :=
| Ret (a : A)
| Raise (e : exn).
Arguments Ret {A} a.
Arguments Raise {A} e.

Definition bind {A B} (m : py A) (k : A -> py B) : py B :=
  match m with
  | Ret a => k a
  | Raise e => Raise e
  end.

Notation "x <- m ;; k" := (bind m (fun x => k))
  (at level 61, m at next level, right associativity).

(** Values decoded from JSON (also the values of configuration maps). *)
Inductive json : Type :=
| JNull
| JBool (b : bool)
| JInt (z : Z)
| JFloat (q : Q)
| JStr (s : string)
| JArr (l : list json)
| JObj (fields : list (string * json)).

(** [bool(v)]: the truth value Python gives to a decoded value. *)
Definition truthy (v : json) : bool :=
  match v with
  | JNull => false
  | JBool b => b
  | JInt z => negb (z =? 0)
  | JFloat q => negb (Qeq_bool q 0)
  | JStr s => negb (s =? "")%string
  | JArr l => match l with [] => false | _ => true end
  | JObj l => match l with [] => false | _ => true end
  end.

(** [dict.get(key)] on the list of the entries of an object: when a key
    is repeated a JSON decoder keeps its last entry, so the entries are
    searched from the end. *)
Fixpoint assoc_last (k : string) (l : list (string * json)) : option json :=
  match l with
  | [] => None
  | (k', v) :: tl =>
      match assoc_last k tl with
      | Some w => Some w
      | None => if (k =? k')%string then Some v else None
      end
  end.

(** [c.get(key, default)]: raises [AttributeError] unless [c] is a dict. *)
Definition py_get (c : json) (k : string) (default : json) : py json :=
  match c with
  | JObj l => Ret (match assoc_last k l with Some v => v | None => default end)
  | _ => Raise (Exn AttributeError "object has no attribute 'get'")
  end.

(** Library functions the programs call and whose text output is not
    fixed by the repository. *)
Class Platform := {
  (** [json.dumps] *)
  json_dumps : json -> string;
  (** SQLite's rendering of a REAL stored in a TEXT column *)
  sqlite_text_of_real : Q -> string;
  (** SQLite's reading of a text stored in a REAL column, when it is one
      of a number *)
  sqlite_numeric_of_text : string -> option Q;
  (** [datetime.isoformat] of a UTC instant given in microseconds *)
  isoformat : Z -> string
}.

(** ** Probe results *)

Definition details_t := option (list (string * json)).

(** [(success, latency, error, details)] *)
Record probe_result := ProbeResult {
  success : bool;
  latency : Q;
  perror : option string;
  pdetails : details_t
}.

Definition Qgtb (x y : Q) : bool := negb (Qle_bool x y).

(** Sum and mean of the [time=N ms] samples of a ping transcript. *)
Definition Zsum (l : list Z) : Z := fold_right Z.add 0 l.
Definition mean (l : list Z) : Q :=
  (inject_Z (Zsum l) / inject_Z (Z.of_nat (List.length l)))%Q.

(** [round(x, 2)]: nearest multiple of 1/100, ties to the even one. *)
Definition round_half_even (q : Q) : Z :=
  let f := Qfloor q in
  let r := (q - inject_Z f)%Q in
  match Qcompare r (1 # 2)%Q with
  | Lt => f
  | Gt => f + 1
  | Eq => if Z.even f then f else f + 1
  end.
Definition round2 (q : Q) : Q := Qmake (round_half_even (q * 100)%Q) 100.

(** [str(n)] for an integer. *)
Definition str_of_Z (z : Z) : string := NilZero.string_of_int (Z.to_int z).

(** ** Targets and outcomes *)

(** One entry of the [targets] list of a configuration. *)
Record target := Target {
  t_name : string;
  t_host : string;
  t_type : option string;      (* absent: 'ping' *)
  t_port : option Z;           (* absent: 80 *)
  t_dns_server : option string (* absent: '8.8.8.8' *)
}.

Definition target_type (t : target) : string :=
  match t_type t with Some s => s | None => "ping" end.

(** ** Observations: what the platform answers to a probe *)

(** Which pattern of the ping transcript gives the latency, in the order
    the source tries them; [ParseError] is [float(...)] raising. *)
Inductive ping_parse :=
| RttLine (avg : Q)
| AverageLine (n : Z)
| TimeSamples (t : Z) (ts : list Z)
| NoLatency
| ParseError (e : exn).

Inductive ping_obs :=
| PingExited (returncode : Z) (parsed : ping_parse)
| PingRaised (e : exn).

Inductive http_obs :=
| HttpResponse (code : Z) (content_type : option string) (elapsed : Q)
| HttpRaised (e : exn).

Inductive tcp_obs :=
| ConnectEx (result : Z) (elapsed : Q)
| TcpRaised (e : exn).

(** [fallback] is what [socket.gethostbyname] does when it is reached:
    the elapsed time, or the exception it raises. *)
Inductive dns_obs :=
| DigExited (returncode : Z) (stdout_nonblank : bool) (elapsed : Q)
| DigRaised (e : exn) (fallback : py Q).

Record observation := Observation {
  ping_o : ping_obs;
  http_o : http_obs;
  tcp_o : tcp_obs;
  dns_o : dns_obs
}.

(** ** app.py: probes and [check_target] *)

Module App.

(** [CheckResult] *)
Record CheckResult := mkCheckResult {
  target_name : string;
  status : string;
  latency_ms : Q;
  timestamp : string;
  error : option string;
  details : details_t
}.

Definition ping_host (o : ping_obs) : bool * Q * option string :=
  let handler (e : exn) :=
    match cls e with
    | TimeoutExpired => (false, 0%Q, Some "Timeout")
    | _ => (false, 0%Q, Some (text e))
    end in
  match o with
  | PingExited rc parsed =>
      if rc =? 0 then
        match parsed with
        | RttLine avg => (true, avg, None)
        | AverageLine n => (true, inject_Z n, None)
        | TimeSamples t ts => (true, mean (t :: ts), None)
        | NoLatency => (true, 0%Q, None)
        | ParseError e => handler e
        end
      else (false, 0%Q, Some "Host unreachable")
  | PingRaised e => handler e
  end.

Definition check_http (o : http_obs) : bool * Q * option string * details_t :=
  match o with
  | HttpResponse code ct elapsed =>
      let details := Some [("status_code", JInt code);
                           ("content_type",
                            JStr (match ct with Some c => c | None => "unknown" end))] in
      if (200 <=? code) && (code <? 400)
      then (true, elapsed, None, details)
      else (false, elapsed, Some ("HTTP " ++ str_of_Z code), details)
  | HttpRaised e =>
      match cls e with
      | AsyncioTimeoutError => (false, 0%Q, Some "Timeout", Some [])
      | ClientError => (false, 0%Q, Some (text e), Some [])
      | _ => (false, 0%Q, Some (text e), Some [])
      end
  end.

Definition check_tcp (o : tcp_obs) : bool * Q * option string :=
  match o with
  | ConnectEx result elapsed =>
      if result =? 0 then (true, elapsed, None)
      else (false, elapsed,
            Some ("Connection refused (error: " ++ str_of_Z result ++ ")"))
  | TcpRaised e =>
      match cls e with
      | SocketTimeout => (false, 0%Q, Some "Timeout")
      | SocketGaierror => (false, 0%Q, Some ("DNS resolution failed: " ++ text e))
      | _ => (false, 0%Q, Some (text e))
      end
  end.

(** The handler of [FileNotFoundError] calls [socket.gethostbyname] under
    an inner [try] that catches [socket.gaierror] only; what else it raises
    leaves [check_dns]. *)
Definition check_dns (o : dns_obs) : py (bool * Q * option string) :=
  match o with
  | DigExited rc nonblank elapsed =>
      if (rc =? 0) && nonblank then Ret (true, elapsed, None)
      else Ret (false, elapsed, Some "DNS resolution failed")
  | DigRaised e fallback =>
      match cls e with
      | TimeoutExpired => Ret (false, 0%Q, Some "Timeout")
      | FileNotFoundError =>
          match fallback with
          | Ret elapsed => Ret (true, elapsed, None)
          | Raise e' =>
              match cls e' with
              | SocketGaierror => Ret (false, 0%Q, Some (text e'))
              | _ => Raise e'
              end
          end
      | _ => Ret (false, 0%Q, Some (text e))
      end
  end.

(** The probe selected by the target's type; no branch is taken for a
    type outside the four, which leaves the initial values. *)
Definition run_probe (t : target) (o : observation) : py probe_result :=
  let ty := target_type t in
  if (ty =? "ping")%string then
    let '(s, l, e) := ping_host (ping_o o) in Ret (ProbeResult s l e None)
  else if (ty =? "http")%string then
    let '(s, l, e, d) := check_http (http_o o) in Ret (ProbeResult s l e d)
  else if (ty =? "tcp")%string then
    let '(s, l, e) := check_tcp (tcp_o o) in Ret (ProbeResult s l e None)
  else if (ty =? "dns")%string then
    r <- check_dns (dns_o o) ;;
    let '(s, l, e) := r in Ret (ProbeResult s l e None)
  else Ret (ProbeResult false 0%Q None None).

(** "Determine status" *)
Definition derive_status (success : bool) (latency : Q) : string :=
  if success then
    if Qgtb latency 500 then "degraded" else "online"
  else "offline".

(** [now] is [datetime.now().isoformat()]. *)
Definition check_target (t : target) (o : observation) (now : string)
  : py CheckResult :=
  r <- run_probe t o ;;
  Ret (mkCheckResult (t_name t) (derive_status (success r) (latency r))
         (round2 (latency r)) now (perror r) (pdetails r)).

End App.

(** ** app.py: the [checks] table and its queries *)

Module Store.

(** A value of the REAL column [latency_ms]. *)
Inductive real_col :=
| RNull
| RReal (q : Q)
| RText (s : string).

(** The nine columns written by [insert_check]; the columns declared TEXT
    hold NULL or a text. *)
Record check_cols := Cols {
  agent_id : option string;
  target_name : option string;
  host : option string;
  type : option string;
  status : option string;
  latency_ms : real_col;
  timestamp : option string;
  error : option string;
  details : option string
}.

(** A row: [id INTEGER PRIMARY KEY AUTOINCREMENT] and the other columns. *)
Record row := Row { id : Z; cols : check_cols }.

(** The table, rows in insertion order, and the largest id ever given
    (AUTOINCREMENT never gives an id again, also after deletions). *)
Record db := Db { rows : list row; seq : Z }.

Definition init_db : db := Db [] 0.

(** [INSERT INTO checks (...) VALUES (...)] *)
Definition sql_insert (c : check_cols) (d : db) : db :=
  Db (rows d ++ [Row (seq d + 1) c]) (seq d + 1).

(** The key of "latest" and of the recent window. *)
Definition key := (option string * option string)%type.
Definition key_of (r : row) : key := (agent_id (cols r), target_name (cols r)).

Definition ostr_eqb (a b : option string) : bool :=
  match a, b with
  | None, None => true
  | Some x, Some y => (x =? y)%string
  | _, _ => false
  end.

(** GROUP BY puts NULLs in one group. *)
Definition key_eqb (k1 k2 : key) : bool :=
  ostr_eqb (fst k1) (fst k2) && ostr_eqb (snd k1) (snd k2).

(** The distinct keys, each at its first occurrence. *)
Fixpoint distinct_keys (l : list row) (seen : list key) : list key :=
  match l with
  | [] => []
  | r :: tl =>
      if existsb (key_eqb (key_of r)) seen then distinct_keys tl seen
      else key_of r :: distinct_keys tl (key_of r :: seen)
  end.

(** [MAX(id)] over the rows of one group. *)
Fixpoint max_id (k : key) (l : list row) : option Z :=
  match l with
  | [] => None
  | r :: tl =>
      if key_eqb (key_of r) k then
        Some (match max_id k tl with Some m => Z.max (id r) m | None => id r end)
      else max_id k tl
  end.

(** [SELECT MAX(id) as max_id FROM checks GROUP BY agent_id, target_name] *)
Definition group_max_ids (l : list row) : list Z :=
  flat_map (fun k => match max_id k l with Some m => [m] | None => [] end)
           (distinct_keys l []).

(** [checks c INNER JOIN (...) m ON c.id = m.max_id]: one output row for
    every pair that satisfies the condition. *)
Definition latest_rows (d : db) : list row :=
  flat_map (fun c => map (fun _ => c)
                       (filter (fun m => id c =? m) (group_max_ids (rows d))))
           (rows d).

(** The rows of the query, which selects every column but [id]. *)
Definition get_latest_statuses (d : db) : list check_cols :=
  map cols (latest_rows d).

(** Comparison of two values of a TEXT column under the BINARY collation:
    NULL sorts before every text, texts compare byte by byte. *)
Definition ts_leb (a b : option string) : bool :=
  match a, b with
  | None, _ => true
  | Some _, None => false
  | Some x, Some y => (x <=? y)%string
  end.

(** [timestamp < ?]: never true of a NULL. *)
Definition ts_before (ts : option string) (cutoff : string) : bool :=
  match ts with
  | None => false
  | Some x => (x <? cutoff)%string
  end.

(** [DELETE FROM checks WHERE timestamp < ?] *)
Definition sql_delete_before (cutoff : string) (d : db) : db :=
  Db (filter (fun r => negb (ts_before (timestamp (cols r)) cutoff)) (rows d))
     (seq d).

(** [WHERE agent_id = ? AND target_name = ?]: a NULL column equals nothing. *)
Definition matches (a t : string) (r : row) : bool :=
  match agent_id (cols r), target_name (cols r) with
  | Some a', Some t' => (a' =? a)%string && (t' =? t)%string
  | _, _ => false
  end.

(** Insertion into a list ordered by descending timestamp, after the rows
    with an equal timestamp. *)
Fixpoint insert_desc (r : row) (l : list row) : list row :=
  match l with
  | [] => [r]
  | x :: tl =>
      if ts_leb (timestamp (cols r)) (timestamp (cols x))
      then x :: insert_desc r tl
      else r :: x :: tl
  end.

(** One [ORDER BY timestamp DESC]. *)
Definition order_by_timestamp_desc (l : list row) : list row :=
  fold_right insert_desc [] (rev l).

(** Every [ORDER BY timestamp DESC] of [l]: SQL leaves the order of rows
    with equal timestamps open. *)
Definition ordered_desc (l sorted : list row) : Prop :=
  Permutation l sorted /\
  StronglySorted
    (fun x y => ts_leb (timestamp (cols y)) (timestamp (cols x)) = true) sorted.

(** An entry of the list [get_recent_history] returns. *)
Record history_entry := Entry {
  h_status : option string;
  h_latency_ms : real_col;
  h_timestamp : option string
}.

Definition entry_of (r : row) : history_entry :=
  Entry (status (cols r)) (latency_ms (cols r)) (timestamp (cols r)).

(** [limit] is a number of rows: the caller passes 60 times a number of
    hours between 1 and 24, the default is 60. *)
Definition get_recent_history (d : db) (a t : string) (limit : nat)
  : list history_entry :=
  map entry_of
    (rev (firstn limit (order_by_timestamp_desc (filter (matches a t) (rows d))))).

(** What [get_recent_history] may return, whichever order the database
    gives to equal timestamps. *)
Definition recent_history (d : db) (a t : string) (limit : nat)
    (res : list history_entry) : Prop :=
  exists sorted,
    ordered_desc (filter (matches a t) (rows d)) sorted /\
    res = map entry_of (rev (firstn limit sorted)).

(** *** Writing a row from Python values *)

(** [CheckResult] as [insert_check] receives it: the dataclass does not
    check the types of its fields. *)
Record check_values := Values {
  v_target_name : json;
  v_status : json;
  v_latency_ms : json;
  v_timestamp : json;
  v_error : json;
  v_details : json
}.

Definition int64 (z : Z) : bool := (- 2 ^ 63 <=? z) && (z <? 2 ^ 63).

Definition unsupported : exn :=
  Exn InterfaceError "Error binding parameter - probably unsupported type.".
Definition too_large : exn :=
  Exn OverflowError "Python int too large to convert to SQLite INTEGER".

(** A parameter bound to a TEXT column. *)
Definition bind_text `{Platform} (v : json) : py (option string) :=
  match v with
  | JNull => Ret None
  | JBool b => Ret (Some (if b then "1" else "0"))
  | JInt z => if int64 z then Ret (Some (str_of_Z z)) else Raise too_large
  | JFloat q => Ret (Some (sqlite_text_of_real q))
  | JStr s => Ret (Some s)
  | JArr _ | JObj _ => Raise unsupported
  end.

(** A parameter bound to the REAL column. *)
Definition bind_real `{Platform} (v : json) : py real_col :=
  match v with
  | JNull => Ret RNull
  | JBool b => Ret (RReal (if b then 1 else 0)%Q)
  | JInt z => if int64 z then Ret (RReal (inject_Z z)) else Raise too_large
  | JFloat q => Ret (RReal q)
  | JStr s => Ret (match sqlite_numeric_of_text s with
                   | Some q => RReal q
                   | None => RText s
                   end)
  | JArr _ | JObj _ => Raise unsupported
  end.

(** [target.get(k) if isinstance(target, dict) else None] *)
Definition target_field (target : json) (k : string) : json :=
  match target with
  | JObj l => match assoc_last k l with Some v => v | None => JNull end
  | _ => JNull
  end.

(** [insert_check]: the statement is executed, and the row written, only
    when every parameter could be bound. *)
Definition insert_check `{Platform} (agent : json) (target : json)
    (result : check_values) (d : db) : py db :=
  let details := if truthy (v_details result)
                 then JStr (json_dumps (v_details result)) else JNull in
  let host := target_field target "host" in
  let typ := target_field target "type" in
  c_agent <- bind_text agent ;;
  c_name <- bind_text (v_target_name result) ;;
  c_host <- bind_text host ;;
  c_type <- bind_text typ ;;
  c_status <- bind_text (v_status result) ;;
  c_latency <- bind_real (v_latency_ms result) ;;
  c_timestamp <- bind_text (v_timestamp result) ;;
  c_error <- bind_text (v_error result) ;;
  c_details <- bind_text details ;;
  Ret (sql_insert (Cols c_agent c_name c_host c_type c_status c_latency
                        c_timestamp c_error c_details) d).

(** One pass of [cleanup_old_records_loop]; [now] is [utcnow()] in
    microseconds. *)
Definition cutoff_iso `{Platform} (now retention_hours : Z) : string :=
  isoformat (now - retention_hours * 3600 * 1000000).

Definition cleanup_old_records `{Platform} (now retention_hours : Z) (d : db) : db :=
  sql_delete_before (cutoff_iso now retention_hours) d.

End Store.

(** ** app.py: the scheduler cycle and the ingestion endpoint *)

Module Collector.

(** The entries of the configuration the cycle reads. *)
Record config := Config {
  targets : list target;
  cfg_agent_id : option string;   (* absent: 'local' *)
  api_key : option string
}.

Definition opt_json (o : option string) : json :=
  match o with Some s => JStr s | None => JNull end.

Definition opt_field {A} (k : string) (f : A -> json) (o : option A)
  : list (string * json) :=
  match o with Some a => [(k, f a)] | None => [] end.

(** The dict of a target as the configuration file gives it. *)
Definition target_dict (t : target) : json :=
  JObj ([("name", JStr (t_name t)); ("host", JStr (t_host t))]
        ++ opt_field "type" JStr (t_type t)
        ++ opt_field "port" JInt (t_port t)
        ++ opt_field "dns_server" JStr (t_dns_server t)).

Definition values_of_result (r : App.CheckResult) : Store.check_values :=
  Store.Values (JStr (App.target_name r)) (JStr (App.status r))
         (JFloat (App.latency_ms r)) (JStr (App.timestamp r))
         (opt_json (App.error r))
         (match App.details r with Some l => JObj l | None => JNull end).

(** The body of the loop of [run_checks] for the result of one task:
    [result] is what [asyncio.gather(..., return_exceptions=True)] holds
    for the target, [utc] is [utcnow().isoformat()]. *)
Definition finish_result (t : target) (result : py App.CheckResult)
    (utc : string) : App.CheckResult :=
  match result with
  | Raise e =>
      App.mkCheckResult (t_name t) "offline" 0%Q utc (Some (text e)) None
  | Ret r =>
      App.mkCheckResult (App.target_name r) (App.status r) (App.latency_ms r)
        utc (App.error r) (App.details r)
  end.

Definition agent_of (cfg : config) : json :=
  JStr (match cfg_agent_id cfg with Some a => a | None => "local" end).

(** [try: Store.insert_check(...) except Exception: print(...)] *)
Definition try_insert `{Platform} (agent target : json) (v : Store.check_values)
    (d : Store.db) : Store.db :=
  match Store.insert_check agent target v d with
  | Ret d' => d'
  | Raise _ => d
  end.

(** The loop over [enumerate(results)], from index [i]. [obs], [local] and
    [utc] give, for the i-th target, what its probe observes, the reading
    of [datetime.now()] in [check_target] and that of [utcnow()] in the
    loop. *)
Fixpoint run_checks_from `{Platform} (cfg : config) (ts : list target)
    (i : nat) (obs : nat -> observation) (local utc : nat -> string)
    (d : Store.db) : list App.CheckResult * Store.db :=
  match ts with
  | [] => ([], d)
  | t :: tl =>
      let result := finish_result t (App.check_target t (obs i) (local i)) (utc i) in
      let d1 := try_insert (agent_of cfg) (target_dict t)
                  (values_of_result result) d in
      let '(rest, d2) := run_checks_from cfg tl (S i) obs local utc d1 in
      (result :: rest, d2)
  end.

(** [run_checks]: the results of the cycle, in the order of the targets,
    and the table after it. The dict [monitoring_results], which the loop
    also fills and no query reads, is left out. *)
Definition run_checks `{Platform} (cfg : config) (obs : nat -> observation)
    (local utc : nat -> string) (d : Store.db) : list App.CheckResult * Store.db :=
  run_checks_from cfg (targets cfg) 0 obs local utc d.

(** *** /api/ingest *)

Record request := Request {
  x_api_key : option string;   (* the header, when present *)
  payload : json               (* [request.get_json()], [JNull] for None *)
}.

Record response := Response { code : Z; body : json }.

(** [needle in text] for two strings. *)
Fixpoint contains (text needle : string) : bool :=
  prefix needle text ||
  match text with
  | EmptyString => false
  | String _ tl => contains tl needle
  end.

Definition json_is_str (s : string) (v : json) : bool :=
  match v with JStr s' => (s =? s')%string | _ => false end.

(** ['checks' in payload] *)
Definition has_checks (p : json) : py bool :=
  match p with
  | JObj l => Ret (match assoc_last "checks" l with Some _ => true | None => false end)
  | JArr l => Ret (existsb (json_is_str "checks") l)
  | JStr s => Ret (contains s "checks")
  | _ => Raise (Exn TypeError "argument is not iterable")
  end.

Fixpoint chars (s : string) : list json :=
  match s with
  | EmptyString => []
  | String c tl => JStr (String c EmptyString) :: chars tl
  end.

(** The keys of a dict, each once. *)
Fixpoint dict_keys (l : list (string * json)) (seen : list string) : list json :=
  match l with
  | [] => []
  | (k, _) :: tl =>
      if existsb (String.eqb k) seen then dict_keys tl seen
      else JStr k :: dict_keys tl (k :: seen)
  end.

(** [for c in checks]: the items the loop visits. *)
Definition py_iter (v : json) : py (list json) :=
  match v with
  | JArr l => Ret l
  | JStr s => Ret (chars s)
  | JObj l => Ret (dict_keys l [])
  | _ => Raise (Exn TypeError "object is not iterable")
  end.

(** The body of the [try] for one item of the batch. *)
Definition ingest_record `{Platform} (agent : json) (c : json) (utc : string)
    (d : Store.db) : py Store.db :=
  v_name <- py_get c "target_name" JNull ;;
  v_status <- py_get c "status" JNull ;;
  v_latency <- py_get c "latency_ms" (JFloat 0) ;;
  v_timestamp <- py_get c "timestamp" (JStr utc) ;;
  v_error <- py_get c "error" JNull ;;
  v_details <- py_get c "details" JNull ;;
  v_host <- py_get c "host" JNull ;;
  v_type <- py_get c "type" JNull ;;
  Store.insert_check agent (JObj [("host", v_host); ("type", v_type)])
    (Store.Values v_name v_status v_latency v_timestamp v_error v_details) d.

(** The loop over the batch: the count of rows written and the table. *)
Fixpoint ingest_loop `{Platform} (agent : json) (checks : list json) (i : nat)
    (utc : nat -> string) (inserted : Z) (d : Store.db) : Z * Store.db :=
  match checks with
  | [] => (inserted, d)
  | c :: tl =>
      match ingest_record agent c (utc i) d with
      | Ret d' => ingest_loop agent tl (S i) utc (inserted + 1) d'
      | Raise _ => ingest_loop agent tl (S i) utc inserted d
      end
  end.

Definition unauthorized : response :=
  Response 401 (JObj [("error", JStr "Unauthorized")]).
Definition invalid_payload : response :=
  Response 400 (JObj [("error", JStr "Invalid payload")]).
Definition ok (n : Z) : response :=
  Response 200 (JObj [("status", JStr "ok"); ("received", JInt n)]).

(** [not api_key or api_key != APP_CONFIG.get('api_key')] *)
Definition key_rejected (cfg : config) (rq : request) : bool :=
  match x_api_key rq with
  | None => true
  | Some k => (k =? "")%string || negb (Store.ostr_eqb (Some k) (api_key cfg))
  end.

(** [api_ingest]: the response (or the exception that leaves the view, which
    the framework answers with status 500) and the table afterwards. *)
Definition api_ingest `{Platform} (cfg : config) (rq : request)
    (utc : nat -> string) (d : Store.db) : py response * Store.db :=
  if key_rejected cfg rq then (Ret unauthorized, d)
  else if negb (truthy (payload rq)) then (Ret invalid_payload, d)
  else match has_checks (payload rq) with
  | Raise e => (Raise e, d)
  | Ret false => (Ret invalid_payload, d)
  | Ret true =>
      match py_get (payload rq) "agent_id" (JStr "unknown") with
      | Raise e => (Raise e, d)
      | Ret agent =>
          match (checks <- py_get (payload rq) "checks" (JArr []) ;; py_iter checks) with
          | Raise e => (Raise e, d)
          | Ret items =>
              let '(inserted, d') := ingest_loop agent items 0 utc 0 d in
              (Ret (ok inserted), d')
          end
      end
  end.

End Collector.

(** ** agent.py: probes, the cycle and the reporter *)

Module Agent.

(** The dict [run_target] returns for one target. *)
Record check := Check {
  target_name : string;
  host : string;
  type : string;
  status : string;
  latency_ms : Q;
  timestamp : string;
  error : option string;
  details : details_t
}.

Definition check_http (o : http_obs) : bool * Q * option string * details_t :=
  match o with
  | HttpResponse code ct elapsed =>
      let details := Some [("status_code", JInt code);
                           ("content_type",
                            match ct with Some c => JStr c | None => JNull end)] in
      if (200 <=? code) && (code <? 400)
      then (true, elapsed, None, details)
      else (false, elapsed, Some ("HTTP " ++ str_of_Z code), details)
  | HttpRaised e =>
      match cls e with
      | AsyncioTimeoutError => (false, 0%Q, Some "Timeout", Some [])
      | _ => (false, 0%Q, Some (text e), Some [])
      end
  end.

Definition ping_host (o : ping_obs) : bool * Q * option string * details_t :=
  let handler (e : exn) :=
    match cls e with
    | TimeoutExpired => (false, 0%Q, Some "Timeout", @None (list (string * json)))
    | _ => (false, 0%Q, Some (text e), None)
    end in
  match o with
  | PingExited rc parsed =>
      if rc =? 0 then
        match parsed with
        | RttLine avg => (true, avg, None, None)
        | AverageLine n => (true, inject_Z n, None, None)
        | TimeSamples t ts => (true, mean (t :: ts), None, None)
        | NoLatency => (true, 0%Q, None, None)
        | ParseError e => handler e
        end
      else (false, 0%Q, Some "Host unreachable", None)
  | PingRaised e => handler e
  end.

Definition check_tcp (o : tcp_obs) : bool * Q * option string :=
  match o with
  | ConnectEx result elapsed =>
      if result =? 0 then (true, elapsed, None)
      else (false, elapsed,
            Some ("Connection refused (error: " ++ str_of_Z result ++ ")"))
  | TcpRaised e =>
      match cls e with
      | SocketTimeout => (false, 0%Q, Some "Timeout")
      | SocketGaierror => (false, 0%Q, Some ("DNS resolution failed: " ++ text e))
      | _ => (false, 0%Q, Some (text e))
      end
  end.

(** As in app.py, the inner [try] of the [FileNotFoundError] handler
    catches [socket.gaierror] only. *)
Definition check_dns (o : dns_obs) : py (bool * Q * option string * details_t) :=
  match o with
  | DigExited rc nonblank elapsed =>
      if (rc =? 0) && nonblank then Ret (true, elapsed, None, None)
      else Ret (false, elapsed, Some "DNS resolution failed", None)
  | DigRaised e fallback =>
      match cls e with
      | FileNotFoundError =>
          match fallback with
          | Ret elapsed => Ret (true, elapsed, None, None)
          | Raise e' =>
              match cls e' with
              | SocketGaierror => Ret (false, 0%Q, Some (text e'), None)
              | _ => Raise e'
              end
          end
      | _ => Ret (false, 0%Q, Some (text e), None)
      end
  end.

(** The branch on [ttype] in [run_target]. *)
Definition run_probe (t : target) (o : observation) : py probe_result :=
  let ttype := target_type t in
  if (ttype =? "http")%string then
    let '(s, l, e, d) := check_http (http_o o) in Ret (ProbeResult s l e d)
  else if (ttype =? "ping")%string then
    let '(s, l, e, d) := ping_host (ping_o o) in Ret (ProbeResult s l e d)
  else if (ttype =? "tcp")%string then
    let '(s, l, e) := check_tcp (tcp_o o) in Ret (ProbeResult s l e None)
  else if (ttype =? "dns")%string then
    r <- check_dns (dns_o o) ;;
    let '(s, l, e, d) := r in Ret (ProbeResult s l e d)
  else Ret (ProbeResult false 0%Q (Some "Unknown type") None).

(** ['online' if success and latency <= 500 else
     ('degraded' if success else 'offline')] *)
Definition derive_status (success : bool) (latency : Q) : string :=
  if success && Qle_bool latency 500 then "online"
  else if success then "degraded" else "offline".

(** [run_target]; [utc] is [utcnow().isoformat()]. *)
Definition run_target (t : target) (o : observation) (utc : string) : py check :=
  r <- run_probe t o ;;
  Ret (Check (t_name t) (t_host t) (target_type t)
         (derive_status (success r) (latency r))
         (round2 (latency r)) utc (perror r) (pdetails r)).

(** The loop [for fut in asyncio.as_completed(tasks): r = await fut;
    results.append(r)] over the tasks in the order they complete: a task
    that raised raises again at [await], which leaves [run_cycle]. *)
Fixpoint collect (completed : list (py check)) (results : list check)
  : py (list check) :=
  match completed with
  | [] => Ret results
  | Ret r :: tl => collect tl (results ++ [r])
  | Raise e :: tl => Raise e
  end.

(** The tasks of a cycle, one per target, in the order of the targets. *)
Fixpoint tasks_from (ts : list target) (i : nat) (obs : nat -> observation)
    (utc : nat -> string) : list (py check) :=
  match ts with
  | [] => []
  | t :: tl => run_target t (obs i) (utc i) :: tasks_from tl (S i) obs utc
  end.

(** [run_cycle]; [completion] is the order in which the tasks complete,
    as positions in the list of targets. *)
Definition run_cycle (ts : list target) (obs : nat -> observation)
    (utc : nat -> string) (completion : list nat) : py (list check) :=
  let tasks := tasks_from ts 0 obs utc in
  collect (flat_map (fun i => match nth_error tasks i with
                              | Some task => [task]
                              | None => []
                              end) completion) [].

(** *** The reporter *)

(** What one [session.post] ends in: the status of the response, or the
    exception raised instead. *)
Definition reply := py Z.

(** [resp.status == 200], and no exception on the way. *)
Definition accepted (r : reply) : bool :=
  match r with
  | Ret st => st =? 200
  | Raise _ => false
  end.

(** What [send_batch] does, in order. *)
Inductive event :=
| Post
| Sleep (seconds : Z).

(** The loop [for attempt in range(5)] over the attempts still to make;
    [collector n] is the end of the request of attempt [n]. *)
Fixpoint send_attempts (attempts : list nat) (collector : nat -> reply)
  : bool * list event :=
  match attempts with
  | [] => (false, [])
  | attempt :: tl =>
      if accepted (collector attempt) then (true, [Post])
      else
        let '(sent, evs) := send_attempts tl collector in
        (sent, Post :: Sleep (2 ^ Z.of_nat attempt) :: evs)
  end.

Definition send_batch (collector : nat -> reply) : bool * list event :=
  send_attempts (seq 0 5) collector.

(** One turn of the loop of [main_loop]: the cycle, then the report. An
    exception of [run_cycle] is caught nowhere. *)
Definition main_loop_turn (ts : list target) (obs : nat -> observation)
    (utc : nat -> string) (completion : list nat) (collector : nat -> reply)
  : py (list check * bool) :=
  results <- run_cycle ts obs utc completion ;;
  Ret (results, fst (send_batch collector)).

End Agent.

(** ** app.py: the read endpoints *)

Module Api.

(** [/api/summary] *)
Record summary := Summary {
  total : nat;
  online : nat;
  degraded : nat;
  offline : nat
}.

(** [sum(1 for r in rows if r['status'] == st)] *)
Definition count_status (st : string) (rows : list Store.check_cols) : nat :=
  List.length (filter (fun c => Store.ostr_eqb (Store.status c) (Some st)) rows).

Definition api_summary (d : Store.db) : summary :=
  let rows := Store.get_latest_statuses d in
  Summary (List.length rows) (count_status "online" rows)
          (count_status "degraded" rows) (count_status "offline" rows).

(** [timestamp >= ?]: never true of a NULL. *)
Definition ts_at_least (ts : option string) (cutoff : string) : bool :=
  match ts with
  | None => false
  | Some x => (cutoff <=? x)%string
  end.

(** [WHERE target_name = ? AND timestamp >= ?] *)
Definition in_window (target_name cutoff : string) (r : Store.row) : bool :=
  Store.ostr_eqb (Store.target_name (Store.cols r)) (Some target_name) &&
  ts_at_least (Store.timestamp (Store.cols r)) cutoff.

(** The instants a [datetime] can hold, in microseconds since the epoch:
    from 0001-01-01T00:00:00 to 9999-12-31T23:59:59.999999. *)
Definition datetime_min : Z := - 62135596800 * 1000000.
Definition datetime_max : Z := 253402300800 * 1000000 - 1.

(** [utcnow() - timedelta(hours=hours)], which raises OverflowError when
    the result is no date. *)
Definition hours_before (now hours : Z) : py Z :=
  let cutoff := now - hours * 3600 * 1000000 in
  if (datetime_min <=? cutoff) && (cutoff <=? datetime_max) then Ret cutoff
  else Raise (Exn OverflowError "date value out of range").

(** The [details] of a row as [get_history] returns them: the text decoded
    when it is JSON, the text itself when [json.loads] raises; [loads] is
    [json.loads], [None] for its exception. *)
Definition parse_details (loads : string -> option json) (raw : option string)
  : json :=
  match raw with
  | None => JNull
  | Some s =>
      if (s =? "")%string then JNull
      else match loads s with
           | Some v => v
           | None => JStr s
           end
  end.

(** An entry of the list [get_history] returns: the columns of the row and
    its details decoded. *)
Definition history_of (loads : string -> option json) (r : Store.row)
  : Store.check_cols * json :=
  (Store.cols r, parse_details loads (Store.details (Store.cols r))).

(** [get_history], with one order of the rows of equal timestamp. *)
Definition get_history `{Platform} (loads : string -> option json)
    (d : Store.db) (target_name : string) (hours now : Z)
  : py (list (Store.check_cols * json)) :=
  cutoff <- hours_before now hours ;;
  Ret (map (history_of loads)
         (rev (Store.order_by_timestamp_desc
                 (filter (in_window target_name (isoformat cutoff))
                         (Store.rows d))))).

(** [/api/target/<name>]: [hours_arg] is the query parameter as [int()]
    reads it, when it is given. *)
Inductive target_response :=
| History (target : string) (history : list (Store.check_cols * json))
| NotFound
| Internal (message : string).

Definition status_code (r : target_response) : Z :=
  match r with
  | History _ _ => 200
  | NotFound => 404
  | Internal _ => 500
  end.

Definition api_target `{Platform} (loads : string -> option json)
    (d : Store.db) (name : string) (hours_arg : option (py Z)) (now : Z)
  : target_response :=
  match (hours <- match hours_arg with Some h => h | None => Ret 24 end ;;
         get_history loads d name hours now) with
  | Raise e => Internal (text e)
  | Ret [] => NotFound
  | Ret history => History name history
  end.

(** The [hours] of [/api/status]: 1 when the parameter is missing or is no
    integer, else the parameter clamped to 1..24. *)
Definition status_hours (hours_arg : option (py Z)) : Z :=
  match hours_arg with
  | None => Z.max 1 (Z.min 1 24)
  | Some (Ret h) => Z.max 1 (Z.min h 24)
  | Some (Raise _) => 1
  end.

(** [limit = hours * 60] *)
Definition status_limit (hours_arg : option (py Z)) : nat :=
  Z.to_nat (status_hours hours_arg * 60).

(** [str(v)] in the key of an entry: 'None' for a NULL. *)
Definition str_of_column (v : option string) : string :=
  match v with Some s => s | None => "None" end.

(** [f"{r['agent_id']} :: {r['target_name']}"] *)
Definition status_key (c : Store.check_cols) : string :=
  str_of_column (Store.agent_id c) ++ " :: " ++ str_of_column (Store.target_name c).

(** The history of an entry: a NULL parameter equals no column. *)
Definition entry_history (d : Store.db) (c : Store.check_cols) (limit : nat)
  : list Store.history_entry :=
  match Store.agent_id c, Store.target_name c with
  | Some a, Some t => Store.get_recent_history d a t limit
  | _, _ => []
  end.

(** An entry of [targets] in [/api/status]. *)
Record status_entry := StatusEntry {
  current : Store.check_cols;
  current_details : json;
  icon : option string;
  history : list Store.history_entry
}.

(** [targets[key] = value] on a dict kept as the list of its items. *)
Fixpoint dict_set {V} (k : string) (v : V) (l : list (string * V))
  : list (string * V) :=
  match l with
  | [] => [(k, v)]
  | (k', v') :: tl =>
      if (k =? k')%string then (k, v) :: tl else (k', v') :: dict_set k v tl
  end.

(** [target_icon_map.get(name)], the map being filled from the targets of
    the configuration that have a name and an icon, in their order. *)
Fixpoint icon_of (icons : list (string * string)) (name : option string)
  : option string :=
  match icons with
  | [] => None
  | (n, i) :: tl =>
      match icon_of tl name with
      | Some j => Some j
      | None => if Store.ostr_eqb (Some n) name then Some i else None
      end
  end.

(** [json.loads(r['details']) if r['details'] else None] *)
Definition current_details_of (loads : string -> option json)
    (raw : option string) : py json :=
  match raw with
  | None => Ret JNull
  | Some s =>
      if (s =? "")%string then Ret JNull
      else match loads s with
           | Some v => Ret v
           | None => Raise (Exn OtherException "Expecting value")
           end
  end.

(** The loop of [/api/status] over the latest rows. *)
Fixpoint status_entries (loads : string -> option json)
    (icons : list (string * string)) (d : Store.db) (limit : nat)
    (rows : list Store.check_cols) (targets : list (string * status_entry))
  : py (list (string * status_entry)) :=
  match rows with
  | [] => Ret targets
  | r :: tl =>
      details <- current_details_of loads (Store.details r) ;;
      status_entries loads icons d limit tl
        (dict_set (status_key r)
           (StatusEntry r details (icon_of icons (Store.target_name r))
              (entry_history d r limit))
           targets)
  end.

Definition api_status (loads : string -> option json)
    (icons : list (string * string)) (d : Store.db)
    (hours_arg : option (py Z)) : py (list (string * status_entry)) :=
  status_entries loads icons d (status_limit hours_arg)
    (Store.get_latest_statuses d) [].

End Api.


(** ** scripts/fetch_icons.py: [slugify] *)

Module Icons.

(** A character of the class [a-z0-9]. Texts are sequences of bytes (UTF-8);
    every byte of a character outside ASCII is outside the class, as the
    character is. *)
Definition is_alnum (c : ascii) : bool :=
  let n := nat_of_ascii c in
  ((97 <=? n)%nat && (n <=? 122)%nat) || ((48 <=? n)%nat && (n <=? 57)%nat).

Definition is_dash (c : ascii) : bool := (c =? "-")%char.

(** [re.sub(r"[^a-z0-9]+", '-', s)]; [in_run] tells that the character
    before was replaced. *)
Fixpoint replace_runs (s : string) (in_run : bool) : string :=
  match s with
  | EmptyString => EmptyString
  | String c tl =>
      if is_alnum c then String c (replace_runs tl false)
      else if in_run then replace_runs tl true
      else String "-" (replace_runs tl true)
  end.

(** [re.sub(r"-+", '-', s)] *)
Fixpoint collapse_dashes (s : string) (in_run : bool) : string :=
  match s with
  | EmptyString => EmptyString
  | String c tl =>
      if is_dash c then
        if in_run then collapse_dashes tl true
        else String "-" (collapse_dashes tl true)
      else String c (collapse_dashes tl false)
  end.

(** [s.lstrip('-')] and [s.rstrip('-')]; [strip] does both. *)
Fixpoint lstrip (s : string) : string :=
  match s with
  | String c tl => if is_dash c then lstrip tl else s
  | EmptyString => EmptyString
  end.

Fixpoint rstrip (s : string) : string :=
  match s with
  | EmptyString => EmptyString
  | String c tl =>
      let r := rstrip tl in
      if is_dash c && (r =? "")%string then EmptyString else String c r
  end.

Definition strip (s : string) : string := rstrip (lstrip s).

(** [slugify]; [lower] is [str.lower]. *)
Definition slugify (lower : string -> string) (name : string) : string :=
  let s := lower name in
  let s := replace_runs s false in
  let s := strip (collapse_dashes s false) in
  if (s =? "")%string then "icon" else s.

End Icons.


(** ** agent.py: the pauses of [main_loop] *)

Module AgentLoop.

(** [x % m] on numbers: the remainder has the sign of [m]; a zero [m]
    raises ZeroDivisionError. Instants and durations are finite numbers of
    seconds, rationals here. *)
Definition py_mod (x m : Q) : py Q :=
  if Qeq_bool m 0 then Raise (Exn OtherException "float modulo")
  else Ret (x - m * inject_Z (Qfloor (x / m)))%Q.

(** The wait before the first cycle: none when [now] is a whole minute. *)
Definition initial_wait (now : Q) : py (option Q) :=
  seconds_into_minute <- py_mod now 60 ;;
  Ret (if Qgtb seconds_into_minute 0 then Some (60 - seconds_into_minute)%Q
       else None).

(** The pause after a cycle: [elapsed] is the duration of the cycle and of
    its report, [now] the time after them. [sleep_time] is computed and not
    used. *)
Definition pause_after_cycle (interval elapsed now : Q) : py Q :=
  r <- py_mod elapsed interval ;;
  let sleep_time := (interval - r)%Q in
  seconds_into_minute <- py_mod now 60 ;;
  let target_seconds :=
    if Qgtb seconds_into_minute 0 then (60 - seconds_into_minute)%Q else 60%Q in
  Ret target_seconds.

End AgentLoop.


(** ** A concrete platform and sample data *)

Module Sample.

(** [n] in decimal on at least [width] digits. *)
Fixpoint zeros (n : nat) : string :=
  match n with O => "" | S k => "0" ++ zeros k end.
Definition padded (width : nat) (n : Z) : string :=
  let digits := str_of_Z n in
  zeros (width - String.length digits) ++ digits.

(** The date of a day counted from 1970-01-01, in the proleptic Gregorian
    calendar. *)
Definition civil_from_days (days : Z) : Z * Z * Z :=
  let z := days + 719468 in
  let era := z / 146097 in
  let doe := z - era * 146097 in
  let yoe := (doe - doe / 1460 + doe / 36524 - doe / 146096) / 365 in
  let doy := doe - (365 * yoe + yoe / 4 - yoe / 100) in
  let mp := (5 * doy + 2) / 153 in
  let day := doy - (153 * mp + 2) / 5 + 1 in
  let month := if mp <? 10 then mp + 3 else mp - 9 in
  let year := yoe + era * 400 + (if month <=? 2 then 1 else 0) in
  (year, month, day).

(** [isoformat()] of an aware UTC datetime given in microseconds since the
    epoch; the fraction is left out when it is zero. *)
Definition isoformat_utc (us : Z) : string :=
  let secs := us / 1000000 in
  let frac := us mod 1000000 in
  let '(year, month, day) := civil_from_days (secs / 86400) in
  let sod := secs mod 86400 in
  padded 4 year ++ "-" ++ padded 2 month ++ "-" ++ padded 2 day ++ "T" ++
  padded 2 (sod / 3600) ++ ":" ++ padded 2 (sod mod 3600 / 60) ++ ":" ++
  padded 2 (sod mod 60) ++
  (if frac =? 0 then "" else "." ++ padded 6 frac) ++ "+00:00".

(** A platform: the date format of Python, and renderings of JSON and of
    reals that keep only what the properties below look at. *)
Definition platform : Platform := {|
  json_dumps := fun _ => "{}";
  sqlite_text_of_real := fun q => str_of_Z (Qfloor q);
  sqlite_numeric_of_text := fun _ => None;
  isoformat := isoformat_utc
|}.

(** 2024-05-02T10:01:00Z, in microseconds. *)
Definition may_2nd : Z := 1714644060000000.

Definition cols (a t ts st : string) : Store.check_cols :=
  Store.Cols (Some a) (Some t) (Some "10.0.0.1") (Some "ping") (Some st)
    (Store.RReal 12) (Some ts) None None.

(** Two agents, two targets, five rows; row 2 has been deleted. *)
Definition table : Store.db :=
  Store.Db [ Store.Row 1 (cols "a1" "web" "2024-05-01T10:00:00+00:00" "online");
             Store.Row 3 (cols "a1" "db" "2024-05-01T10:00:30+00:00" "offline");
             Store.Row 4 (cols "a2" "web" "2024-05-01T10:01:00+00:00" "online");
             Store.Row 5 (cols "a1" "web" "2024-05-01T10:02:00+00:00" "degraded");
             Store.Row 6 (cols "a1" "web" "2024-05-01T10:01:30+00:00" "online") ]
           6.

Definition quiet : observation :=
  Observation (PingExited 0 (RttLine (123 # 10)))
              (HttpResponse 200 (Some "text/html") 120)
              (ConnectEx 111 (3 # 2))
              (DigExited 0 true 40).

(** No [dig] on the host, and a host name that [socket.gethostbyname]
    refuses to encode. *)
Definition label_error : exn :=
  Exn OtherException "encoding with 'idna' codec failed (UnicodeError: label empty or too long)".
Definition no_dig : observation :=
  Observation (PingExited 0 NoLatency)
              (HttpResponse 200 None 120)
              (ConnectEx 0 1)
              (DigRaised (Exn FileNotFoundError "[Errno 2] No such file or directory: 'dig'")
                         (Raise label_error)).

Definition web : target := Target "web" "https://example.test/200" (Some "http") None None.
Definition svc : target := Target "svc" "127.0.0.1" (Some "tcp") (Some 9) None.
Definition resolver : target := Target "resolver" "a..b" (Some "dns") None None.
Definition odd : target := Target "odd" "10.0.0.9" (Some "icmp") None None.

Definition collector_cfg : Collector.config :=
  Collector.Config [web; svc] None (Some "s3cret").



(** A body whose [checks] entry is a number. *)
Definition checks_is_number : Collector.request :=
  Collector.Request (Some "s3cret")
    (JObj [("agent_id", JStr "a1"); ("checks", JInt 5)]).

Definition clock (i : nat) : string := "2024-05-01T10:03:01+00:00".

(** A configuration whose second target is the one [no_dig] makes raise. *)
Definition three_targets : Collector.config :=
  Collector.Config [web; resolver; svc] None (Some "s3cret").

End Sample.

(** ** The properties, in the words of the specification *)

(** Status derivation: [online] if success and latency <= 500 ms,
    [degraded] if success and latency > 500 ms, [offline] if not success. *)
Definition status_rule (succeeded : bool) (lat : Q) (st : string) : Prop :=
  (succeeded = true -> (500 < lat)%Q -> st = "degraded") /\
  (succeeded = true -> (lat <= 500)%Q -> st = "online") /\
  (succeeded = false -> st = "offline").

(** The three values of a status. *)
Definition is_status (st : string) : Prop :=
  st = "online" \/ st = "degraded" \/ st = "offline".

(** The four types of target that have a probe. *)
Definition known_type (ty : string) : bool :=
  (ty =? "ping")%string || (ty =? "http")%string ||
  (ty =? "tcp")%string || (ty =? "dns")%string.

(** The number of send attempts in a run of the reporter. *)
Definition posts (evs : list Agent.event) : nat :=
  List.length (filter (fun e => match e with Agent.Post => true | _ => false end) evs).

(** The pauses of a run of the reporter, in order. *)
Definition sleeps (evs : list Agent.event) : list Z :=
  flat_map (fun e => match e with Agent.Sleep n => [n] | _ => [] end) evs.

(** The state of the table that the declaration of [id] maintains: ids are
    unique, and none exceeds the largest id given so far. *)
Definition primary_key (d : Store.db) : Prop :=
  NoDup (map Store.id (Store.rows d)) /\
  Forall (fun r => Store.id r <= Store.seq d) (Store.rows d).

(** A value that can be bound to a parameter of a statement: a scalar,
    an integer within 64 bits. *)
Definition bindable (v : json) : bool :=
  match v with
  | JArr _ | JObj _ => false
  | JInt z => Store.int64 z
  | _ => true
  end.

(** The entries of a record of a batch that end in a column as they are. *)
Definition column_fields : list string :=
  ["target_name"; "host"; "type"; "status"; "latency_ms"; "timestamp"; "error"].

(** A record of a batch that can be persisted: a JSON object whose column
    entries, where present, are bindable. An entry that is missing is not a
    defect: the column gets NULL or its default. *)
Definition well_formed (c : json) : bool :=
  match c with
  | JObj l =>
      forallb (fun k => match assoc_last k l with
                        | Some v => bindable v
                        | None => true
                        end) column_fields
  | _ => false
  end.

(** The columns of the row the scheduler of app.py persists for a result. *)
Definition cols_of_result `{Platform} (cfg : Collector.config) (t : target)
    (r : App.CheckResult) : Store.check_cols :=
  Store.Cols
    (Some (match Collector.cfg_agent_id cfg with Some a => a | None => "local" end))
    (Some (App.target_name r)) (Some (t_host t)) (t_type t)
    (Some (App.status r)) (Store.RReal (App.latency_ms r))
    (Some (App.timestamp r)) (App.error r)
    (match App.details r with
     | Some (x :: l) => Some (json_dumps (JObj (x :: l)))
     | _ => None
     end).

(** The seconds a run of the reporter spends asleep. *)
Definition total_sleep (evs : list Agent.event) : Z :=
  fold_right Z.add 0 (sleeps evs).

(** The first of the five attempts that the collector accepts. *)
Definition first_accepted (collector : nat -> Agent.reply) : option nat :=
  find (fun n => Agent.accepted (collector n)) (seq 0 5).


(** The statements that write to the table, and a history of them. *)
Inductive statement :=
| Insert (c : Store.check_cols)
| DeleteBefore (cutoff : string).

Definition execute (d : Store.db) (s : statement) : Store.db :=
  match s with
  | Insert c => Store.sql_insert c d
  | DeleteBefore cutoff => Store.sql_delete_before cutoff d
  end.

Definition execute_all (history : list statement) (d : Store.db) : Store.db :=
  fold_left execute history d.


(** A status stored in a row that is none of the three. *)
Definition foreign_status (c : Store.check_cols) : bool :=
  negb (Store.ostr_eqb (Store.status c) (Some "online") ||
        Store.ostr_eqb (Store.status c) (Some "degraded") ||
        Store.ostr_eqb (Store.status c) (Some "offline")).


(** The shape of a slug: letters a-z, digits and single dashes between
    them; not empty, no dash first or last. [after_dash] tells that the text
    follows a dash or starts the slug. *)
Fixpoint slug_from (s : string) (after_dash : bool) : bool :=
  match s with
  | EmptyString => negb after_dash
  | String c tl =>
      if Icons.is_alnum c then slug_from tl false
      else if Icons.is_dash c then negb after_dash && slug_from tl true
      else false
  end.

Definition is_slug (s : string) : bool := slug_from s true.

(** The same without the conditions on the ends. *)
Fixpoint dashed_from (s : string) (after_dash : bool) : bool :=
  match s with
  | EmptyString => true
  | String c tl =>
      if Icons.is_alnum c then dashed_from tl false
      else if Icons.is_dash c then negb after_dash && dashed_from tl true
      else false
  end.

(** ASCII lower case, the part of [str.lower] on ASCII texts. *)
Definition ascii_lower (c : ascii) : ascii :=
  let n := nat_of_ascii c in
  if (65 <=? n)%nat && (n <=? 90)%nat then ascii_of_nat (n + 32) else c.

Fixpoint lower_ascii (s : string) : string :=
  match s with
  | EmptyString => EmptyString
  | String c tl => String (ascii_lower c) (lower_ascii tl)
  end.


(** The status rule read on the latency the outcome records: what the
    rule would say if [latency_ms] were the value compared with 500. *)
Definition rule_on_recorded_latency : Prop :=
  forall (t : target) (o : observation) (now utc : string)
         (rp ra : probe_result) (c : App.CheckResult) (a : Agent.check),
    App.run_probe t o = Ret rp ->
    Agent.run_probe t o = Ret ra ->
    App.check_target t o now = Ret c ->
    Agent.run_target t o utc = Ret a ->
    status_rule (success rp) (App.latency_ms c) (App.status c) /\
    status_rule (success ra) (Agent.latency_ms a) (Agent.status a).








(** * Proofs *)

(** Case analysis on every [match] and [if] of a probe. *)
Ltac probe_cases :=
  repeat match goal with
         | |- context [match ?x with _ => _ end] => destruct x eqn:?; simpl
         | |- context [if ?b then _ else _] => destruct b eqn:?; simpl
         end.

(** ** The check pipeline *)

Lemma Qgtb_true (x y : Q) : Qgtb x y = true <-> (y < x)%Q.
Proof.
  unfold Qgtb. rewrite negb_true_iff. split; intro H.
  - apply Qnot_le_lt. intro L. apply Qle_bool_iff in L. congruence.
  - destruct (Qle_bool x y) eqn:E; [|reflexivity].
    apply Qle_bool_iff in E. exfalso. exact (Qlt_not_le _ _ H E).
Qed.

Lemma Qgtb_false (x y : Q) : Qgtb x y = false <-> (x <= y)%Q.
Proof.
  unfold Qgtb. rewrite negb_false_iff. apply Qle_bool_iff.
Qed.

Lemma app_status_rule (s : bool) (l : Q) : status_rule s l (App.derive_status s l).
Proof.
  unfold status_rule, App.derive_status.
  destruct s; (split; [|split]); intros; try discriminate; try reflexivity.
  - assert (E : Qgtb l 500 = true) by (now apply Qgtb_true). now rewrite E.
  - assert (E : Qgtb l 500 = false) by (now apply Qgtb_false). now rewrite E.
Qed.

Lemma agent_status_rule (s : bool) (l : Q) : status_rule s l (Agent.derive_status s l).
Proof.
  unfold status_rule, Agent.derive_status.
  destruct s; simpl; (split; [|split]); intros; try discriminate; try reflexivity.
  - destruct (Qle_bool l 500) eqn:E; [|reflexivity].
    apply Qle_bool_iff in E. exfalso. exact (Qlt_not_le _ _ H0 E).
  - assert (E : Qle_bool l 500 = true) by (now apply Qle_bool_iff). now rewrite E.
Qed.

Lemma app_status_is_status (s : bool) (l : Q) : is_status (App.derive_status s l).
Proof.
  unfold is_status, App.derive_status.
  destruct s; [destruct (Qgtb l 500)|]; auto.
Qed.

Lemma agent_status_is_status (s : bool) (l : Q) : is_status (Agent.derive_status s l).
Proof.
  unfold is_status, Agent.derive_status.
  destruct s; simpl; [destruct (Qle_bool l 500)|]; auto.
Qed.

(** [check_target] returns exactly when its probe does. *)
Lemma app_check_target_ret (t : target) (o : observation) (now : string)
    (r : probe_result) :
  App.run_probe t o = Ret r ->
  App.check_target t o now =
    Ret (App.mkCheckResult (t_name t) (App.derive_status (success r) (latency r))
           (round2 (latency r)) now (perror r) (pdetails r)).
Proof. unfold App.check_target. now intros ->. Qed.

Lemma app_check_target_inv (t : target) (o : observation) (now : string)
    (c : App.CheckResult) :
  App.check_target t o now = Ret c ->
  exists r, App.run_probe t o = Ret r /\
    c = App.mkCheckResult (t_name t) (App.derive_status (success r) (latency r))
          (round2 (latency r)) now (perror r) (pdetails r).
Proof.
  unfold App.check_target. destruct (App.run_probe t o) as [r|e]; simpl.
  - intros [= <-]. now exists r.
  - discriminate.
Qed.

Lemma agent_run_target_ret (t : target) (o : observation) (utc : string)
    (r : probe_result) :
  Agent.run_probe t o = Ret r ->
  Agent.run_target t o utc =
    Ret (Agent.Check (t_name t) (t_host t) (target_type t)
           (Agent.derive_status (success r) (latency r))
           (round2 (latency r)) utc (perror r) (pdetails r)).
Proof. unfold Agent.run_target. now intros ->. Qed.

Lemma agent_run_target_inv (t : target) (o : observation) (utc : string)
    (a : Agent.check) :
  Agent.run_target t o utc = Ret a ->
  exists r, Agent.run_probe t o = Ret r /\
    a = Agent.Check (t_name t) (t_host t) (target_type t)
          (Agent.derive_status (success r) (latency r))
          (round2 (latency r)) utc (perror r) (pdetails r).
Proof.
  unfold Agent.run_target. destruct (Agent.run_probe t o) as [r|e]; simpl.
  - intros [= <-]. now exists r.
  - discriminate.
Qed.

(** The rule is applied to the latency as measured; the [latency_ms] of
    the outcome is that latency rounded. A request answered in 500.004 ms
    is [degraded] and recorded with a latency equal to 500. *)
Remark threshold_precedes_rounding :
  exists c,
    App.check_target Sample.web
      (Observation (PingExited 0 NoLatency) (HttpResponse 200 None (500004 # 1000))
                   (ConnectEx 0 1) (DigExited 0 true 1))
      "2024-05-01T12:00:00" = Ret c /\
    App.status c = "degraded" /\ (App.latency_ms c == 500)%Q.
Proof. eexists. repeat split. Qed.

(** Every [return] of a probe that reports success reports no error. *)
Lemma app_ping_no_error (o : ping_obs) (s : bool) (l : Q) (e : option string) :
  App.ping_host o = (s, l, e) -> s = true -> e = None.
Proof.
  unfold App.ping_host. probe_cases; intros [= <- <- <-]; intros; congruence.
Qed.

Lemma app_http_no_error (o : http_obs) s l e d :
  App.check_http o = (s, l, e, d) -> s = true -> e = None.
Proof.
  unfold App.check_http. probe_cases; intros [= <- <- <- <-]; intros; congruence.
Qed.

Lemma app_tcp_no_error (o : tcp_obs) s l e :
  App.check_tcp o = (s, l, e) -> s = true -> e = None.
Proof.
  unfold App.check_tcp. probe_cases; intros [= <- <- <-]; intros; congruence.
Qed.

Lemma app_dns_no_error (o : dns_obs) s l e :
  App.check_dns o = Ret (s, l, e) -> s = true -> e = None.
Proof.
  unfold App.check_dns. probe_cases; intros [= <- <- <-]; intros; congruence.
Qed.

Lemma agent_ping_no_error (o : ping_obs) s l e d :
  Agent.ping_host o = (s, l, e, d) -> s = true -> e = None.
Proof.
  unfold Agent.ping_host. probe_cases; intros [= <- <- <- <-]; intros; congruence.
Qed.

Lemma agent_http_no_error (o : http_obs) s l e d :
  Agent.check_http o = (s, l, e, d) -> s = true -> e = None.
Proof.
  unfold Agent.check_http. probe_cases; intros [= <- <- <- <-]; intros; congruence.
Qed.

Lemma agent_tcp_no_error (o : tcp_obs) s l e :
  Agent.check_tcp o = (s, l, e) -> s = true -> e = None.
Proof.
  unfold Agent.check_tcp. probe_cases; intros [= <- <- <-]; intros; congruence.
Qed.

Lemma agent_dns_no_error (o : dns_obs) s l e d :
  Agent.check_dns o = Ret (s, l, e, d) -> s = true -> e = None.
Proof.
  unfold Agent.check_dns. probe_cases; intros [= <- <- <- <-]; intros; congruence.
Qed.

Lemma app_probe_no_error (t : target) (o : observation) (r : probe_result) :
  App.run_probe t o = Ret r -> success r = true -> perror r = None.
Proof.
  unfold App.run_probe.
  destruct (target_type t =? "ping")%string.
  { destruct (App.ping_host (ping_o o)) as [[s l] e] eqn:E.
    intros [= <-]; simpl. eapply app_ping_no_error; eauto. }
  destruct (target_type t =? "http")%string.
  { destruct (App.check_http (http_o o)) as [[[s l] e] d] eqn:E.
    intros [= <-]; simpl. eapply app_http_no_error; eauto. }
  destruct (target_type t =? "tcp")%string.
  { destruct (App.check_tcp (tcp_o o)) as [[s l] e] eqn:E.
    intros [= <-]; simpl. eapply app_tcp_no_error; eauto. }
  destruct (target_type t =? "dns")%string.
  { destruct (App.check_dns (dns_o o)) as [[[s l] e]|x] eqn:E; simpl.
    - intros [= <-]; simpl. eapply app_dns_no_error; eauto.
    - discriminate. }
  intros [= <-]; simpl. discriminate.
Qed.

Lemma agent_probe_no_error (t : target) (o : observation) (r : probe_result) :
  Agent.run_probe t o = Ret r -> success r = true -> perror r = None.
Proof.
  unfold Agent.run_probe.
  destruct (target_type t =? "http")%string.
  { destruct (Agent.check_http (http_o o)) as [[[s l] e] d] eqn:E.
    intros [= <-]; simpl. eapply agent_http_no_error; eauto. }
  destruct (target_type t =? "ping")%string.
  { destruct (Agent.ping_host (ping_o o)) as [[[s l] e] d] eqn:E.
    intros [= <-]; simpl. eapply agent_ping_no_error; eauto. }
  destruct (target_type t =? "tcp")%string.
  { destruct (Agent.check_tcp (tcp_o o)) as [[s l] e] eqn:E.
    intros [= <-]; simpl. eapply agent_tcp_no_error; eauto. }
  destruct (target_type t =? "dns")%string.
  { destruct (Agent.check_dns (dns_o o)) as [[[[s l] e] d]|x] eqn:E; simpl.
    - intros [= <-]; simpl. eapply agent_dns_no_error; eauto.
    - discriminate. }
  intros [= <-]; simpl. discriminate.
Qed.

Lemma app_status_success (s : bool) (l : Q) :
  App.derive_status s l = "online" \/ App.derive_status s l = "degraded" ->
  s = true.
Proof.
  unfold App.derive_status. destruct s; [reflexivity|].
  intros [H|H]; discriminate.
Qed.

Lemma agent_status_success (s : bool) (l : Q) :
  Agent.derive_status s l = "online" \/ Agent.derive_status s l = "degraded" ->
  s = true.
Proof.
  unfold Agent.derive_status. destruct s; [reflexivity|]. simpl.
  intros [H|H]; discriminate.
Qed.

(** C9. In every outcome of the check pipeline a status [online] or
    [degraded] comes with no error: for the result of [check_target], for
    the same result after the scheduler has stamped it and for the agent's
    dict; the outcome the scheduler makes for a check that raised, the only
    one whose error it sets itself, is [offline]. *)
Theorem error_only_with_offline (t : target) (o : observation)
    (now utc : string) (c : App.CheckResult) (a : Agent.check) :
  App.check_target t o now = Ret c ->
  Agent.run_target t o utc = Ret a ->
  (App.status c = "online" \/ App.status c = "degraded" -> App.error c = None) /\
  (App.status (Collector.finish_result t (Ret c) utc) = "online" \/
   App.status (Collector.finish_result t (Ret c) utc) = "degraded" ->
   App.error (Collector.finish_result t (Ret c) utc) = None) /\
  (Agent.status a = "online" \/ Agent.status a = "degraded" ->
   Agent.error a = None) /\
  (forall e, App.status (Collector.finish_result t (Raise e) utc) = "offline").
Proof.
  intros Hc Ha.
  apply app_check_target_inv in Hc as (r & Hr & ->).
  apply agent_run_target_inv in Ha as (r' & Hr' & ->).
  simpl. repeat split.
  - intro H. apply app_status_success in H. now apply (app_probe_no_error t o).
  - intro H. apply app_status_success in H. now apply (app_probe_no_error t o).
  - intro H. apply agent_status_success in H. now apply (agent_probe_no_error t o).
Qed.

Lemma error_only_with_offline_witness :
  exists c a,
    App.check_target Sample.web Sample.quiet "2024-05-01T12:00:00" = Ret c /\
    Agent.run_target Sample.web Sample.quiet "2024-05-01T10:00:00+00:00" = Ret a /\
    App.status c = "online" /\ App.error c = None /\
    Agent.status a = "online" /\ Agent.error a = None.
Proof.
  eexists. eexists.
  split; [reflexivity|]. split; [reflexivity|].
  destruct (error_only_with_offline Sample.web Sample.quiet
              "2024-05-01T12:00:00" "2024-05-01T10:00:00+00:00" _ _
              eq_refl eq_refl) as (H1 & _ & H3 & _).
  split; [reflexivity|]. split; [apply H1; left; reflexivity|].
  split; [reflexivity|]. apply H3; left; reflexivity.
Defined.

(** A type outside the four starts no probe: the outcome is [offline], in
    the agent with the error 'Unknown type', in app.py with none. *)
Lemma unknown_type_offline (t : target) (o : observation) (now utc : string) :
  known_type (target_type t) = false ->
  App.check_target t o now =
    Ret (App.mkCheckResult (t_name t) "offline" (round2 0) now None None) /\
  Agent.run_target t o utc =
    Ret (Agent.Check (t_name t) (t_host t) (target_type t) "offline" (round2 0)
           utc (Some "Unknown type") None).
Proof.
  unfold known_type. intro H.
  apply orb_false_iff in H as [H Hd].
  apply orb_false_iff in H as [H Ht].
  apply orb_false_iff in H as [Hp Hh].
  unfold App.check_target, Agent.run_target, App.run_probe, Agent.run_probe.
  rewrite Hp, Hh, Ht, Hd. simpl. split; reflexivity.
Qed.

(** An outcome that is returned has one of the three statuses, and the
    scheduler of app.py has one for every target, raised check or not. *)
Lemma returned_status_is_status (t : target) (o : observation) (now utc : string) :
  (forall c, App.check_target t o now = Ret c -> is_status (App.status c)) /\
  (forall a, Agent.run_target t o utc = Ret a -> is_status (Agent.status a)) /\
  is_status (App.status (Collector.finish_result t (App.check_target t o now) utc)).
Proof.
  repeat split.
  - intros c Hc. apply app_check_target_inv in Hc as (r & _ & ->).
    apply app_status_is_status.
  - intros a Ha. apply agent_run_target_inv in Ha as (r & _ & ->).
    apply agent_status_is_status.
  - unfold App.check_target. destruct (App.run_probe t o) as [r|e]; simpl.
    + apply app_status_is_status.
    + right. right. reflexivity.
Qed.

(** C10 (the code at the input on which it departs from the claim). A
    [dns] target on a host without [dig], with a name that
    [socket.gethostbyname] rejects with an error other than
    [socket.gaierror]: the per-target check of either program raises instead
    of returning an outcome, and the agent's cycle raises with it even when
    the other targets, here one of unknown type, returned theirs. *)
Theorem dns_fallback_raises :
  App.check_target Sample.resolver Sample.no_dig "2024-05-01T12:00:00"
    = Raise Sample.label_error /\
  Agent.run_target Sample.resolver Sample.no_dig "2024-05-01T10:00:00+00:00"
    = Raise Sample.label_error /\
  Agent.run_cycle [Sample.odd; Sample.resolver] (fun _ => Sample.no_dig)
    (fun _ => "2024-05-01T10:00:00+00:00") [0%nat; 1%nat]
    = Raise Sample.label_error.
Proof. repeat split. Qed.

(** ** The reporter *)

Lemma send_attempts_posts (l : list nat) (collector : nat -> Agent.reply) :
  (posts (snd (Agent.send_attempts l collector)) <= List.length l)%nat.
Proof.
  unfold posts.
  induction l as [|a l IH]; simpl; [lia|].
  destruct (Agent.accepted (collector a)); simpl; [lia|].
  destruct (Agent.send_attempts l collector) as [sent evs].
  simpl in *. lia.
Qed.

Lemma send_attempts_first (a : nat) (l : list nat) (collector : nat -> Agent.reply) :
  Agent.accepted (collector a) = true ->
  Agent.send_attempts (a :: l) collector = (true, [Agent.Post]).
Proof. simpl. now intros ->. Qed.

Lemma send_attempts_next (a : nat) (l : list nat) (collector : nat -> Agent.reply) :
  Agent.accepted (collector a) = false ->
  Agent.send_attempts (a :: l) collector =
    (fst (Agent.send_attempts l collector),
     Agent.Post :: Agent.Sleep (2 ^ Z.of_nat a)
       :: snd (Agent.send_attempts l collector)).
Proof.
  simpl. intros ->. now destruct (Agent.send_attempts l collector).
Qed.

(** C3. The reporter makes at most 5 send attempts in every run. When the
    first four attempts are not answered with 200 (another status or a
    transport error) and the fifth is, it makes exactly 5 attempts, sleeps
    1, 2, 4 and 8 seconds between them, in that order, and reports success.
    When none of the five is answered with 200 it reports failure after the
    fifth, the batch being sent nowhere else. *)
Theorem send_batch_retries (collector : nat -> Agent.reply) :
  (posts (snd (Agent.send_batch collector)) <= 5)%nat /\
  ((forall n, (n < 4)%nat -> Agent.accepted (collector n) = false) ->
   Agent.accepted (collector 4%nat) = true ->
   Agent.send_batch collector =
     (true, [Agent.Post; Agent.Sleep 1; Agent.Post; Agent.Sleep 2; Agent.Post;
             Agent.Sleep 4; Agent.Post; Agent.Sleep 8; Agent.Post]) /\
   posts (snd (Agent.send_batch collector)) = 5%nat /\
   sleeps (snd (Agent.send_batch collector)) = [1; 2; 4; 8]) /\
  ((forall n, (n < 5)%nat -> Agent.accepted (collector n) = false) ->
   fst (Agent.send_batch collector) = false /\
   posts (snd (Agent.send_batch collector)) = 5%nat).
Proof.
  split; [apply (send_attempts_posts (seq 0 5))|].
  unfold Agent.send_batch. split.
  - intros Hfail Hok.
    assert (E : Agent.send_attempts (seq 0 5) collector =
      (true, [Agent.Post; Agent.Sleep 1; Agent.Post; Agent.Sleep 2; Agent.Post;
              Agent.Sleep 4; Agent.Post; Agent.Sleep 8; Agent.Post])).
    { cbn [seq].
      do 4 (rewrite send_attempts_next by (apply Hfail; lia)).
      rewrite send_attempts_first by exact Hok. reflexivity. }
    rewrite E. repeat split.
  - intros Hfail. cbn [seq].
    do 5 (rewrite send_attempts_next by (apply Hfail; lia)).
    simpl. split; reflexivity.
Qed.

Lemma send_batch_retries_witness :
  Agent.send_batch (fun n => if (n <? 4)%nat then Ret 500 else Ret 200) =
    (true, [Agent.Post; Agent.Sleep 1; Agent.Post; Agent.Sleep 2; Agent.Post;
            Agent.Sleep 4; Agent.Post; Agent.Sleep 8; Agent.Post]) /\
  fst (Agent.send_batch (fun n => if Nat.even n then Ret 503
                                  else Raise (Exn ClientError "Cannot connect")))
    = false.
Proof.
  split.
  - apply (send_batch_retries (fun n => if (n <? 4)%nat then Ret 500 else Ret 200)).
    + intros n Hn. destruct (Nat.ltb_spec n 4); [reflexivity | lia].
    + reflexivity.
  - apply (send_batch_retries
             (fun n => if Nat.even n then Ret 503
                       else Raise (Exn ClientError "Cannot connect"))).
    intros n _. destruct (Nat.even n); reflexivity.
Defined.

(** ** The table *)

Module StoreProofs.
Import Store.

Lemma ostr_eqb_eq (a b : option string) : ostr_eqb a b = true <-> a = b.
Proof.
  destruct a as [x|], b as [y|]; simpl; try (split; congruence).
  rewrite String.eqb_eq. split; congruence.
Qed.

Lemma key_eqb_eq (k1 k2 : key) : key_eqb k1 k2 = true <-> k1 = k2.
Proof.
  destruct k1 as [a1 t1], k2 as [a2 t2]. unfold key_eqb; simpl.
  rewrite andb_true_iff, !ostr_eqb_eq. split.
  - intros [-> ->]. reflexivity.
  - intros [= -> ->]. auto.
Qed.

Lemma key_eqb_refl (k : key) : key_eqb k k = true.
Proof. now apply key_eqb_eq. Qed.

Lemma key_eqb_neq (k1 k2 : key) : key_eqb k1 k2 = false <-> k1 <> k2.
Proof.
  rewrite <- key_eqb_eq. destruct (key_eqb k1 k2); split; congruence.
Qed.

(** *** The primary key is maintained by every statement *)

Lemma primary_key_init : primary_key init_db.
Proof. split; constructor. Qed.

Lemma primary_key_insert (c : check_cols) (d : db) :
  primary_key d -> primary_key (sql_insert c d).
Proof.
  intros [Hnd Hle]. split; simpl.
  - rewrite map_app. simpl. apply NoDup_app.
    + exact Hnd.
    + constructor; [intros []|constructor].
    + intros x Hx [<-|[]]. apply in_map_iff in Hx as (r & Hr & Hin).
      rewrite Forall_forall in Hle. specialize (Hle r Hin). lia.
  - apply Forall_app. split.
    + eapply Forall_impl; [|exact Hle]. simpl. intros; lia.
    + constructor; [simpl; lia|constructor].
Qed.

(** Deleting rows keeps the ids of the others distinct. *)
Lemma ids_unique_after_delete (keep : row -> bool) (table : list row) :
  NoDup (map id table) -> NoDup (map id (filter keep table)).
Proof.
  induction table as [|x table IH]; simpl; intro Hnd; [exact Hnd|].
  apply NoDup_cons_iff in Hnd as [Hnot Hnd].
  destruct (keep x); simpl; [|now apply IH].
  apply NoDup_cons_iff. split; [|now apply IH].
  rewrite in_map_iff. intros (y & Hy & Hin).
  apply filter_In in Hin as [Hin _].
  apply Hnot. rewrite <- Hy. now apply in_map.
Qed.

Lemma primary_key_delete (cutoff : string) (d : db) :
  primary_key d -> primary_key (sql_delete_before cutoff d).
Proof.
  intros [Hnd Hle]. split; simpl.
  - now apply ids_unique_after_delete.
  - rewrite Forall_forall in *. intros r Hr.
    apply filter_In in Hr as [Hr _]. auto.
Qed.

(** *** The retention sweep *)

Lemma filter_idem {A} (p : A -> bool) (l : list A) :
  filter p (filter p l) = filter p l.
Proof.
  induction l as [|x l IH]; simpl; [reflexivity|].
  destruct (p x) eqn:E; simpl; [rewrite E, IH|]; auto.
Qed.

(** C5. One retention sweep leaves in the table the rows whose timestamp
    is not before the cutoff computed from the current time and the
    retention horizon, and only them, in their order and with their ids;
    a second sweep at the same time changes nothing. *)
Theorem sweep_removes_old_rows `{Platform} (now retention_hours : Z) (d : db) :
  let cutoff := cutoff_iso now retention_hours in
  let d' := cleanup_old_records now retention_hours d in
  (forall r, In r (rows d') <->
             In r (rows d) /\ ts_before (timestamp (cols r)) cutoff = false) /\
  (forall r, In r (rows d) -> ~ In r (rows d') ->
             ts_before (timestamp (cols r)) cutoff = true) /\
  rows d' = filter (fun r => negb (ts_before (timestamp (cols r)) cutoff)) (rows d) /\
  cleanup_old_records now retention_hours d' = d'.
Proof.
  intros cutoff d'. subst d'. unfold cleanup_old_records, sql_delete_before.
  fold cutoff. simpl. repeat split.
  - apply filter_In in H0. tauto.
  - apply filter_In in H0 as [_ H0]. now apply negb_true_iff in H0.
  - intros [Hin Hts]. apply filter_In. split; [exact Hin|]. now rewrite Hts.
  - intros r Hin Hnot.
    destruct (ts_before (timestamp (cols r)) cutoff) eqn:E; [reflexivity|].
    exfalso. apply Hnot. apply filter_In. split; [exact Hin|]. now rewrite E.
  - now rewrite filter_idem.
Qed.


Lemma sweep_removes_old_rows_witness :
  map id (rows (@cleanup_old_records Sample.platform Sample.may_2nd 24 Sample.table))
    = [4; 5; 6] /\
  @cleanup_old_records Sample.platform Sample.may_2nd 24
    (@cleanup_old_records Sample.platform Sample.may_2nd 24 Sample.table)
    = @cleanup_old_records Sample.platform Sample.may_2nd 24 Sample.table.
Proof.
  split; [reflexivity|].
  apply (@sweep_removes_old_rows Sample.platform Sample.may_2nd 24 Sample.table).
Defined.

(** *** Latest per key *)

Lemma id_injective (l : list row) (r r' : row) :
  NoDup (map id l) -> In r l -> In r' l -> id r = id r' -> r = r'.
Proof.
  induction l as [|x l IH]; simpl; [tauto|].
  intro H. inversion H as [|? ? Hnot Hnd]; subst.
  intros [->|Hr] [->|Hr'] E; auto.
  - exfalso. apply Hnot. rewrite E. now apply in_map.
  - exfalso. apply Hnot. rewrite <- E. now apply in_map.
Qed.

Lemma filter_none {A} (p : A -> bool) (l : list A) :
  (forall x, In x l -> p x = false) -> filter p l = [].
Proof.
  induction l as [|x l IH]; simpl; [reflexivity|].
  intro H. rewrite (H x) by now left. apply IH. intros y Hy. apply H. now right.
Qed.

Lemma filter_and {A} (p q : A -> bool) (l : list A) :
  filter p (filter q l) = filter (fun x => q x && p x) l.
Proof.
  induction l as [|x l IH]; simpl; [reflexivity|].
  destruct (q x); simpl; [destruct (p x)|]; now rewrite IH.
Qed.

Lemma filter_by_id (l : list row) (r : row) :
  NoDup (map id l) -> In r l -> filter (fun c => id c =? id r) l = [r].
Proof.
  induction l as [|x l IH]; simpl; [tauto|].
  intro H. inversion H as [|? ? Hnot Hnd]; subst.
  intros [->|Hr].
  - rewrite Z.eqb_refl. f_equal. apply filter_none.
    intros y Hy. apply Z.eqb_neq. intro E. apply Hnot. rewrite <- E.
    now apply in_map.
  - destruct (id x =? id r) eqn:E.
    + apply Z.eqb_eq in E. exfalso. apply Hnot. rewrite E. now apply in_map.
    + now apply IH.
Qed.

Lemma max_id_None (k : key) (l : list row) :
  max_id k l = None <-> forall r, In r l -> key_of r <> k.
Proof.
  induction l as [|x l IH]; simpl.
  - split; [intros _ r []|reflexivity].
  - destruct (key_eqb (key_of x) k) eqn:E.
    + split; [discriminate|]. intro H. apply key_eqb_eq in E.
      exfalso. apply (H x); auto.
    + rewrite IH. apply key_eqb_neq in E. split.
      * intros H r [<-|Hr]; auto.
      * intros H r Hr. apply H. now right.
Qed.

Lemma max_id_Some (k : key) (l : list row) (m : Z) :
  max_id k l = Some m ->
  (exists r, In r l /\ key_of r = k /\ id r = m) /\
  (forall r, In r l -> key_of r = k -> id r <= m).
Proof.
  revert m. induction l as [|x l IH]; simpl; [discriminate|].
  intros m. destruct (key_eqb (key_of x) k) eqn:E.
  - apply key_eqb_eq in E. destruct (max_id k l) as [m'|] eqn:M.
    + intros [= <-]. destruct (IH m' eq_refl) as [(r & Hr & Hk & Hid) Hle].
      split.
      * destruct (Z.max_spec (id x) m') as [[_ ->]|[_ ->]].
        -- exists r. auto.
        -- exists x. auto.
      * intros r' [<-|Hr'] Hk'; [lia|]. specialize (Hle r' Hr' Hk'). lia.
    + intros [= <-]. split; [exists x; auto|].
      intros r' [<-|Hr'] Hk'; [lia|].
      exfalso. exact (proj1 (max_id_None k l) M r' Hr' Hk').
  - apply key_eqb_neq in E. intro M. destruct (IH m M) as [(r & Hr & Hk & Hid) Hle].
    split; [exists r; auto|].
    intros r' [<-|Hr'] Hk'; [contradiction|auto].
Qed.

Lemma max_id_present (k : key) (l : list row) :
  In k (map key_of l) -> exists m, max_id k l = Some m.
Proof.
  intro H. destruct (max_id k l) as [m|] eqn:M; [eauto|].
  apply in_map_iff in H as (r & Hk & Hr).
  exfalso. exact (proj1 (max_id_None k l) M r Hr Hk).
Qed.

Lemma existsb_key (k : key) (seen : list key) :
  existsb (key_eqb k) seen = true <-> In k seen.
Proof.
  rewrite existsb_exists. split.
  - intros (x & Hx & E). apply key_eqb_eq in E. now subst.
  - intro H. exists k. split; [exact H|apply key_eqb_refl].
Qed.

Lemma distinct_keys_In (l : list row) (seen : list key) (k : key) :
  In k (distinct_keys l seen) <-> In k (map key_of l) /\ ~ In k seen.
Proof.
  revert seen. induction l as [|x l IH]; intro seen; simpl; [tauto|].
  destruct (existsb (key_eqb (key_of x)) seen) eqn:E.
  - apply existsb_key in E. rewrite IH. split.
    + intros [H1 H2]. auto.
    + intros [[<-|H1] H2]; [contradiction|auto].
  - assert (N : ~ In (key_of x) seen).
    { intro H. apply existsb_key in H. congruence. }
    simpl. rewrite IH. simpl. split.
    + intros [<-|[H1 H2]]; [auto|]. split; [auto|]. intro H. apply H2. now right.
    + intros [[<-|H1] H2]; [now left|].
      destruct (key_eqb (key_of x) k) eqn:K.
      * apply key_eqb_eq in K. now left.
      * apply key_eqb_neq in K. right. split; [exact H1|].
        intros [H|H]; [contradiction|contradiction].
Qed.

Lemma distinct_keys_NoDup (l : list row) (seen : list key) :
  NoDup (distinct_keys l seen).
Proof.
  revert seen. induction l as [|x l IH]; intro seen; simpl; [constructor|].
  destruct (existsb (key_eqb (key_of x)) seen); [apply IH|].
  constructor; [|apply IH].
  intro H. apply distinct_keys_In in H as [_ H]. apply H. now left.
Qed.

Lemma group_max_ids_In (l : list row) (m : Z) :
  In m (group_max_ids l) <->
  exists k, In k (map key_of l) /\ max_id k l = Some m.
Proof.
  unfold group_max_ids. rewrite in_flat_map. split.
  - intros (k & Hk & Hm). apply distinct_keys_In in Hk as [Hk _].
    destruct (max_id k l) as [m'|] eqn:M; [|destruct Hm].
    destruct Hm as [<-|[]]. eauto.
  - intros (k & Hk & M). exists k. split.
    + apply distinct_keys_In. split; [exact Hk|intros []].
    + rewrite M. now left.
Qed.

Lemma max_id_key_unique (l : list row) (k k' : key) (m : Z) :
  NoDup (map id l) -> max_id k l = Some m -> max_id k' l = Some m -> k = k'.
Proof.
  intros Hnd M M'.
  apply max_id_Some in M as [(r & Hr & Hk & Hid) _].
  apply max_id_Some in M' as [(r' & Hr' & Hk' & Hid') _].
  assert (r = r') by (apply (id_injective l); congruence).
  congruence.
Qed.

Lemma group_max_ids_NoDup (l : list row) :
  NoDup (map id l) -> NoDup (group_max_ids l).
Proof.
  intro Hnd. unfold group_max_ids.
  generalize (distinct_keys_NoDup l []).
  induction (distinct_keys l []) as [|k ks IH]; simpl; [constructor|].
  intro H. inversion H as [|? ? Hnot Hks]; subst.
  destruct (max_id k l) as [m|] eqn:M; simpl; [|auto].
  constructor; [|auto].
  intro Hin. apply in_flat_map in Hin as (k' & Hk' & Hm).
  destruct (max_id k' l) as [m'|] eqn:M'; [|destruct Hm].
  destruct Hm as [<-|[]].
  apply Hnot. now rewrite (max_id_key_unique l k k' m' Hnd M M').
Qed.

Lemma filter_eq_NoDup (x : Z) (g : list Z) :
  NoDup g ->
  filter (fun m => x =? m) g = if existsb (Z.eqb x) g then [x] else [].
Proof.
  induction g as [|y g IH]; simpl; [reflexivity|].
  intro H. inversion H as [|? ? Hnot Hg]; subst.
  destruct (x =? y) eqn:E; simpl.
  - apply Z.eqb_eq in E. subst y. f_equal. apply filter_none.
    intros z Hz. apply Z.eqb_neq. intros ->. contradiction.
  - auto.
Qed.

(** The join keeps a row exactly when its id is the largest of a group. *)
Lemma latest_rows_filter (d : db) :
  NoDup (map id (rows d)) ->
  latest_rows d =
    filter (fun c => existsb (Z.eqb (id c)) (group_max_ids (rows d))) (rows d).
Proof.
  intro Hnd. unfold latest_rows.
  pose proof (group_max_ids_NoDup (rows d) Hnd) as G.
  revert G. generalize (group_max_ids (rows d)) as g. intros g G.
  clear Hnd. generalize (rows d) as l.
  induction l as [|c l IH]; simpl; [reflexivity|].
  rewrite IH, (filter_eq_NoDup (id c) _ G).
  destruct (existsb (Z.eqb (id c)) g); reflexivity.
Qed.

(** C2. In every state of the table (ids unique, as the primary key has
    them), the latest-per-key query returns rows of the table only, and for
    each pair (agent_id, target_name) that occurs in the table exactly one
    row with that pair: the row whose id is the largest among the rows with
    the pair. *)
Theorem latest_is_max_id_per_key (d : db) (k : key) :
  primary_key d ->
  In k (map key_of (rows d)) ->
  (forall x, In x (latest_rows d) -> In x (rows d)) /\
  get_latest_statuses d = map cols (latest_rows d) /\
  exists r,
    In r (rows d) /\ key_of r = k /\
    (forall r', In r' (rows d) -> key_of r' = k -> id r' <= id r) /\
    filter (fun x => key_eqb (key_of x) k) (latest_rows d) = [r] /\
    filter (fun c => key_eqb (agent_id c, target_name c) k)
           (get_latest_statuses d) = [cols r].
Proof.
  intros [Hnd _] Hk.
  rewrite (latest_rows_filter d Hnd).
  split; [intros x Hx; apply filter_In in Hx; tauto|].
  split; [unfold get_latest_statuses; now rewrite (latest_rows_filter d Hnd)|].
  destruct (max_id_present k (rows d) Hk) as [m M].
  destruct (max_id_Some k (rows d) m M) as [(r & Hr & Hkr & Hid) Hle].
  exists r. split; [exact Hr|]. split; [exact Hkr|].
  split; [intros r' Hr' Hk'; rewrite Hid; auto|].
  assert (E : filter (fun x => key_eqb (key_of x) k)
                (filter (fun c => existsb (Z.eqb (id c)) (group_max_ids (rows d)))
                        (rows d)) = [r]).
  { rewrite <- (filter_by_id (rows d) r Hnd Hr).
    rewrite filter_and. apply filter_ext_in. intros c Hc.
    destruct (id c =? id r) eqn:E.
    - apply Z.eqb_eq in E.
      assert (c = r) by (apply (id_injective (rows d)); auto). subst c.
      rewrite Hkr, key_eqb_refl, andb_true_r.
      apply existsb_exists. exists (id r). split; [|apply Z.eqb_refl].
      apply group_max_ids_In. exists k. split; [exact Hk|congruence].
    - apply Z.eqb_neq in E.
      destruct (existsb (Z.eqb (id c)) (group_max_ids (rows d))) eqn:X;
        [|reflexivity].
      apply existsb_exists in X as (m' & Hm' & Em). apply Z.eqb_eq in Em. subst m'.
      apply group_max_ids_In in Hm' as (k' & _ & M').
      destruct (max_id_Some k' (rows d) (id c) M') as [(c' & Hc' & Hkc' & Hidc') _].
      assert (c' = c) by (apply (id_injective (rows d)); auto). subst c'.
      simpl. apply key_eqb_neq. intro Hkc.
      apply E. rewrite Hid. congruence. }
  split; [exact E|].
  unfold get_latest_statuses. rewrite (latest_rows_filter d Hnd).
  rewrite filter_map_swap. unfold key_of in E. now rewrite E.
Qed.

Lemma latest_is_max_id_per_key_witness :
  exists r,
    In r (rows Sample.table) /\ id r = 6 /\
    filter (fun x => key_eqb (key_of x) (Some "a1", Some "web"))
           (latest_rows Sample.table) = [r].
Proof.
  destruct (latest_is_max_id_per_key Sample.table (Some "a1", Some "web"))
    as (_ & _ & r & Hr & Hk & Hmax & Hone & _).
  - split; [repeat constructor; simpl; intuition discriminate
           |repeat constructor; simpl; lia].
  - simpl. auto.
  - exists r. split; [exact Hr|]. split; [|exact Hone].
    vm_compute in Hone. now injection Hone as <-.
Defined.

(** *** The recent window *)

Lemma StronglySorted_app_inv {A} (R : A -> A -> Prop) (l1 l2 : list A) :
  StronglySorted R (l1 ++ l2) ->
  StronglySorted R l1 /\ StronglySorted R l2 /\
  forall x y, In x l1 -> In y l2 -> R x y.
Proof.
  induction l1 as [|a l1 IH]; simpl; intro H.
  - split; [constructor|]. split; [exact H|]. intros x y [].
  - inversion H as [|? ? Hs Hf]; subst.
    destruct (IH Hs) as (H1 & H2 & H3).
    rewrite Forall_app in Hf. destruct Hf as [Hf1 Hf2].
    split; [now constructor|]. split; [exact H2|].
    intros x y [<-|Hx] Hy; [|auto].
    rewrite Forall_forall in Hf2. auto.
Qed.

Lemma StronglySorted_snoc {A} (R : A -> A -> Prop) (l : list A) (a : A) :
  StronglySorted R l -> Forall (fun x => R x a) l -> StronglySorted R (l ++ [a]).
Proof.
  induction l as [|x l IH]; simpl; intros Hs Hf.
  - repeat constructor.
  - inversion Hs as [|? ? Hs' Hx]; subst. inversion Hf as [|? ? Hxa Hf']; subst.
    constructor; [auto|]. apply Forall_app. split; [exact Hx|]. now repeat constructor.
Qed.

Lemma StronglySorted_rev {A} (R : A -> A -> Prop) (l : list A) :
  StronglySorted R l -> StronglySorted (fun x y => R y x) (rev l).
Proof.
  induction l as [|a l IH]; simpl; intro H; [constructor|].
  inversion H as [|? ? Hs Hf]; subst.
  apply StronglySorted_snoc; [auto|].
  apply Forall_forall. intros x Hx. apply in_rev in Hx.
  rewrite Forall_forall in Hf. auto.
Qed.

Lemma StronglySorted_map {A B} (f : A -> B) (R : B -> B -> Prop) (l : list A) :
  StronglySorted (fun x y => R (f x) (f y)) l -> StronglySorted R (map f l).
Proof.
  induction 1 as [|a l Hs IH Hf]; simpl; constructor; [exact IH|].
  apply Forall_forall. intros y Hy. apply in_map_iff in Hy as (x & <- & Hx).
  rewrite Forall_forall in Hf. auto.
Qed.

(** C6. Whatever rows of a table, agent, target and limit, a list the
    recent-window query returns has at most [limit] entries, made from rows
    of the table with the requested agent_id and target_name, in ascending
    order of timestamp; these rows are the most recent ones: as many as the
    limit allows, and no row of the pair left out has a timestamp after
    that of a row taken. *)
Theorem recent_window (d : db) (a t : string) (limit : nat)
    (res : list history_entry) :
  recent_history d a t limit res ->
  (List.length res <= limit)%nat /\
  StronglySorted (fun x y => ts_leb (h_timestamp x) (h_timestamp y) = true) res /\
  exists taken rest,
    res = map entry_of taken /\
    Forall (fun r => In r (rows d) /\ agent_id (cols r) = Some a /\
                     target_name (cols r) = Some t) taken /\
    Permutation (filter (matches a t) (rows d)) (taken ++ rest) /\
    List.length taken = Nat.min limit (List.length (filter (matches a t) (rows d))) /\
    (forall x y, In x taken -> In y rest ->
                 ts_leb (timestamp (cols y)) (timestamp (cols x)) = true).
Proof.
  intros (sorted & (Hperm & Hsorted) & ->).
  rewrite <- (firstn_skipn limit sorted) in Hsorted.
  apply StronglySorted_app_inv in Hsorted as (Hs1 & _ & Hcross).
  split.
  { rewrite length_map, length_rev. apply firstn_le_length. }
  split.
  { apply StronglySorted_map. simpl.
    exact (StronglySorted_rev _ _ Hs1). }
  exists (rev (firstn limit sorted)), (skipn limit sorted).
  split; [reflexivity|]. split.
  { apply Forall_forall. intros r Hr. apply in_rev in Hr.
    assert (Hin : In r (filter (matches a t) (rows d))).
    { apply (Permutation_in r (Permutation_sym Hperm)).
      rewrite <- (firstn_skipn limit sorted). apply in_or_app. now left. }
    apply filter_In in Hin as [Hin Hm]. split; [exact Hin|].
    unfold matches in Hm.
    destruct (agent_id (cols r)) as [a'|]; [|discriminate].
    destruct (target_name (cols r)) as [t'|]; [|discriminate].
    apply andb_true_iff in Hm as [Ha Ht].
    apply String.eqb_eq in Ha, Ht. now subst. }
  split.
  { rewrite Hperm. rewrite <- (firstn_skipn limit sorted) at 1.
    apply Permutation_app_tail. apply Permutation_rev. }
  split.
  { rewrite length_rev, length_firstn, (Permutation_length Hperm). reflexivity. }
  intros x y Hx Hy. apply in_rev in Hx. exact (Hcross x y Hx Hy).
Qed.


(** The byte-wise order of texts is a total preorder. *)
Lemma string_leb_trans (x y z : string) :
  (x <=? y)%string = true -> (y <=? z)%string = true -> (x <=? z)%string = true.
Proof.
  unfold String.leb. revert y z.
  induction x as [|a x IH]; intros [|b y] [|c z]; simpl; try congruence.
  unfold Ascii.compare.
  destruct (N.compare_spec (N_of_ascii a) (N_of_ascii b));
    destruct (N.compare_spec (N_of_ascii b) (N_of_ascii c));
    destruct (N.compare_spec (N_of_ascii a) (N_of_ascii c));
    intros Hxy Hyz; try discriminate; try reflexivity; try lia.
  eapply IH; eassumption.
Qed.

Lemma ts_leb_trans (x y z : option string) :
  ts_leb x y = true -> ts_leb y z = true -> ts_leb x z = true.
Proof.
  destruct x as [x|], y as [y|], z as [z|]; simpl; try congruence.
  apply string_leb_trans.
Qed.

Lemma ts_leb_total (x y : option string) :
  ts_leb x y = true \/ ts_leb y x = true.
Proof.
  destruct x as [x|], y as [y|]; simpl; auto. apply String.leb_total.
Qed.

Lemma insert_desc_perm (r : row) (l : list row) :
  Permutation (r :: l) (insert_desc r l).
Proof.
  induction l as [|x l IH]; simpl; [reflexivity|].
  destruct (ts_leb (timestamp (cols r)) (timestamp (cols x))); [|reflexivity].
  rewrite perm_swap. now constructor.
Qed.

Lemma insert_desc_sorted (r : row) (l : list row) :
  StronglySorted
    (fun x y => ts_leb (timestamp (cols y)) (timestamp (cols x)) = true) l ->
  StronglySorted
    (fun x y => ts_leb (timestamp (cols y)) (timestamp (cols x)) = true)
    (insert_desc r l).
Proof.
  induction 1 as [|x l Hs IH Hf]; simpl; [repeat constructor|].
  destruct (ts_leb (timestamp (cols r)) (timestamp (cols x))) eqn:E.
  - constructor; [exact IH|].
    apply Forall_forall. intros y Hy.
    apply (Permutation_in y (Permutation_sym (insert_desc_perm r l))) in Hy.
    destruct Hy as [<-|Hy]; [exact E|].
    rewrite Forall_forall in Hf. auto.
  - assert (E' : ts_leb (timestamp (cols x)) (timestamp (cols r)) = true).
    { destruct (ts_leb_total (timestamp (cols r)) (timestamp (cols x))); congruence. }
    constructor; [now constructor|].
    constructor; [exact E'|].
    apply Forall_forall. intros y Hy. rewrite Forall_forall in Hf.
    eapply ts_leb_trans; [apply Hf; exact Hy|exact E'].
Qed.

Lemma order_by_timestamp_desc_ordered (l : list row) :
  ordered_desc l (order_by_timestamp_desc l).
Proof.
  unfold ordered_desc, order_by_timestamp_desc. split.
  - rewrite (Permutation_rev l) at 1.
    induction (rev l) as [|x l' IH]; simpl; [reflexivity|].
    rewrite <- insert_desc_perm. now constructor.
  - induction (rev l) as [|x l' IH]; simpl; [constructor|].
    now apply insert_desc_sorted.
Qed.

(** The list computed with one particular order of equal timestamps is
    one the query may return. *)
Lemma get_recent_history_possible (d : db) (a t : string) (limit : nat) :
  recent_history d a t limit (get_recent_history d a t limit).
Proof.
  exists (order_by_timestamp_desc (filter (matches a t) (rows d))).
  split; [apply order_by_timestamp_desc_ordered|reflexivity].
Qed.

Lemma recent_window_witness :
  get_recent_history Sample.table "a1" "web" 2 =
    [ Entry (Some "online") (RReal 12) (Some "2024-05-01T10:01:30+00:00");
      Entry (Some "degraded") (RReal 12) (Some "2024-05-01T10:02:00+00:00") ] /\
  (List.length (get_recent_history Sample.table "a1" "web" 2) <= 2)%nat.
Proof.
  split; [reflexivity|].
  apply (recent_window Sample.table "a1" "web" 2 _
           (get_recent_history_possible Sample.table "a1" "web" 2)).
Defined.

End StoreProofs.

(** ** The ingestion endpoint and the scheduler of app.py *)

Module CollectorProofs.
Import Collector.

Section WithPlatform.
Context `{Platform}.

Lemma bind_text_spec (v : json) :
  match Store.bind_text v with
  | Ret _ => bindable v = true
  | Raise _ => bindable v = false
  end.
Proof. destruct v; simpl; try reflexivity. now destruct (Store.int64 z). Qed.

Lemma bind_real_spec (v : json) :
  match Store.bind_real v with
  | Ret _ => bindable v = true
  | Raise _ => bindable v = false
  end.
Proof. destruct v; simpl; try reflexivity. now destruct (Store.int64 z). Qed.

(** [insert_check] writes one row when all eight values are bindable and
    raises, leaving the table as it was, otherwise. *)
Lemma insert_check_spec (agent target : json) (v : Store.check_values)
    (d : Store.db) :
  match Store.insert_check agent target v d with
  | Ret d' =>
      (exists c, d' = Store.sql_insert c d) /\
      bindable agent = true /\
      forallb bindable
        [Store.v_target_name v; Store.target_field target "host";
         Store.target_field target "type"; Store.v_status v;
         Store.v_latency_ms v; Store.v_timestamp v; Store.v_error v] = true
  | Raise _ =>
      bindable agent = false \/
      forallb bindable
        [Store.v_target_name v; Store.target_field target "host";
         Store.target_field target "type"; Store.v_status v;
         Store.v_latency_ms v; Store.v_timestamp v; Store.v_error v] = false
  end.
Proof.
  unfold Store.insert_check. cbn [forallb].
  pose proof (bind_text_spec agent) as B.
  destruct (Store.bind_text agent); cbn [bind]; [|now left].
  pose proof (bind_text_spec (Store.v_target_name v)) as B1.
  destruct (Store.bind_text (Store.v_target_name v)); cbn [bind];
    rewrite B1; [|now right].
  pose proof (bind_text_spec (Store.target_field target "host")) as B2.
  destruct (Store.bind_text (Store.target_field target "host")); cbn [bind];
    rewrite B2; [|now right].
  pose proof (bind_text_spec (Store.target_field target "type")) as B3.
  destruct (Store.bind_text (Store.target_field target "type")); cbn [bind];
    rewrite B3; [|now right].
  pose proof (bind_text_spec (Store.v_status v)) as B4.
  destruct (Store.bind_text (Store.v_status v)); cbn [bind];
    rewrite B4; [|now right].
  pose proof (bind_real_spec (Store.v_latency_ms v)) as B5.
  destruct (Store.bind_real (Store.v_latency_ms v)); cbn [bind];
    rewrite B5; [|now right].
  pose proof (bind_text_spec (Store.v_timestamp v)) as B6.
  destruct (Store.bind_text (Store.v_timestamp v)); cbn [bind];
    rewrite B6; [|now right].
  pose proof (bind_text_spec (Store.v_error v)) as B7.
  destruct (Store.bind_text (Store.v_error v)); cbn [bind];
    rewrite B7; [|now right].
  destruct (truthy (Store.v_details v)); cbn; eauto.
Qed.

Lemma bindable_default (o : option json) (dflt : json) :
  bindable dflt = true ->
  bindable (match o with Some v => v | None => dflt end) =
  match o with Some v => bindable v | None => true end.
Proof. now destruct o. Qed.

(** The body of the [try] of the endpoint writes one row for a
    well-formed record and raises, writing nothing, for any other. *)
Lemma ingest_record_spec (agent c : json) (utc : string) (d : Store.db) :
  bindable agent = true ->
  match ingest_record agent c utc d with
  | Ret d' => well_formed c = true /\ exists cols, d' = Store.sql_insert cols d
  | Raise _ => well_formed c = false
  end.
Proof.
  intro Hagent.
  destruct c as [| | | | |l|l]; try reflexivity.
  unfold ingest_record, py_get. cbn [bind].
  match goal with
  | |- match Store.insert_check ?a ?t ?v ?d with _ => _ end =>
      pose proof (insert_check_spec a t v d) as S;
      destruct (Store.insert_check a t v d) as [d'|e]
  end.
  - destruct S as (Hc & _ & Hall). split; [|exact Hc].
    cbn in Hall. unfold well_formed, column_fields. cbn [forallb].
    rewrite !bindable_default in Hall by reflexivity. exact Hall.
  - destruct S as [S|S]; [congruence|].
    cbn in S. unfold well_formed, column_fields. cbn [forallb].
    rewrite !bindable_default in S by reflexivity. exact S.
Qed.

(** The loop counts and writes the well-formed records, one row each, after
    the rows the table had. *)
Lemma ingest_loop_spec (agent : json) (items : list json) (utc : nat -> string) :
  bindable agent = true ->
  forall (i : nat) (n : Z) (d : Store.db),
  exists new,
    ingest_loop agent items i utc n d =
      (n + Z.of_nat (List.length (filter well_formed items)),
       Store.Db (Store.rows d ++ new)
                (Store.seq d + Z.of_nat (List.length (filter well_formed items)))) /\
    List.length new = List.length (filter well_formed items).
Proof.
  intro Hagent. induction items as [|c items IH]; intros i n d; simpl.
  - exists []. rewrite app_nil_r, !Z.add_0_r. now destruct d.
  - pose proof (ingest_record_spec agent c (utc i) d Hagent) as Hrec.
    destruct (ingest_record agent c (utc i) d) as [d'|e].
    + destruct Hrec as (-> & cols & ->).
      destruct (IH (S i) (n + 1) (Store.sql_insert cols d)) as (new & -> & Hlen).
      exists (Store.Row (Store.seq d + 1) cols :: new). simpl. split.
      * f_equal; [lia|]. rewrite <- app_assoc. simpl. f_equal. lia.
      * now rewrite Hlen.
    + rewrite Hrec. destruct (IH (S i) n d) as (new & -> & Hlen). eauto.
Qed.


(** A request with the configured key and a body that is an object with a
    list under [checks] is answered 200 with the number of well-formed
    records, each of which is one new row. *)
Lemma api_ingest_accepts (cfg : config) (rq : request) (utc : nat -> string)
    (d : Store.db) (fields : list (string * json)) (items : list json) :
  key_rejected cfg rq = false ->
  payload rq = JObj fields ->
  assoc_last "checks" fields = Some (JArr items) ->
  match assoc_last "agent_id" fields with
  | Some v => bindable v = true
  | None => True
  end ->
  exists new,
    api_ingest cfg rq utc d =
      (Ret (ok (Z.of_nat (List.length (filter well_formed items)))),
       Store.Db (Store.rows d ++ new)
                (Store.seq d + Z.of_nat (List.length (filter well_formed items)))) /\
    List.length new = List.length (filter well_formed items).
Proof.
  intros Hkey Hp Hchecks Hagent.
  unfold api_ingest. rewrite Hkey, Hp.
  assert (T : truthy (JObj fields) = true).
  { destruct fields; [discriminate|reflexivity]. }
  rewrite T. cbn [negb has_checks py_get bind]. rewrite Hchecks. cbn [py_iter].
  set (agent := match assoc_last "agent_id" fields with
                | Some v => v
                | None => JStr "unknown"
                end).
  assert (Hb : bindable agent = true).
  { subst agent. destruct (assoc_last "agent_id" fields); auto. }
  destruct (ingest_loop_spec agent items utc Hb 0%nat 0 d) as (new & -> & Hlen).
  exists new. split; [reflexivity|exact Hlen].
Qed.

(** *** Validation of a request *)

Lemma key_rejected_iff (cfg : config) (rq : request) :
  key_rejected cfg rq = false <->
  exists k, x_api_key rq = Some k /\ k <> "" /\ api_key cfg = Some k.
Proof.
  unfold key_rejected. destruct (x_api_key rq) as [k|].
  - rewrite orb_false_iff, negb_false_iff, String.eqb_neq.
    destruct (api_key cfg) as [k'|]; simpl.
    + rewrite String.eqb_eq. split.
      * intros [Hne ->]. eauto.
      * intros (k0 & [= <-] & Hne & [= ->]). auto.
    + split; [intros [_ ?]; discriminate|intros (k0 & _ & _ & ?); discriminate].
  - split; [discriminate|intros (k0 & ? & _); discriminate].
Qed.

(** The parts of the validation that hold of every request: 401 without
    the configured key, 400 for a body that is null, empty, or an object
    without [checks], the table untouched in both cases. *)
Lemma api_ingest_rejects (cfg : config) (rq : request) (utc : nat -> string)
    (d : Store.db) :
  (x_api_key rq = None \/ x_api_key rq <> api_key cfg ->
   api_ingest cfg rq utc d = (Ret unauthorized, d)) /\
  (key_rejected cfg rq = false ->
   (match payload rq with
    | JNull => True
    | JObj fields => assoc_last "checks" fields = None
    | _ => False
    end) ->
   api_ingest cfg rq utc d = (Ret invalid_payload, d)).
Proof.
  split.
  - intro Hk. unfold api_ingest.
    assert (R : key_rejected cfg rq = true).
    { destruct (key_rejected cfg rq) eqn:E; [reflexivity|].
      apply key_rejected_iff in E as (k & E1 & _ & E2).
      destruct Hk as [Hk|Hk]; congruence. }
    now rewrite R.
  - intros Hk Hp. unfold api_ingest. rewrite Hk.
    destruct (payload rq) as [| | | | |l|fields]; try contradiction; [reflexivity|].
    destruct fields as [|f fields]; [reflexivity|].
    cbn [truthy negb has_checks]. now rewrite Hp.
Qed.


(** *** The cycle of the scheduler *)

(** Persisting a result of the scheduler always writes its row. *)
Lemma insert_result (cfg : config) (t : target) (r : App.CheckResult)
    (d : Store.db) :
  Store.insert_check (agent_of cfg) (target_dict t) (values_of_result r) d =
  Ret (Store.sql_insert (cols_of_result cfg t r) d).
Proof.
  destruct t as [n h [ty|] [p|] [dn|]];
    destruct r as [tn st lat ts [e|] [[|x l]|]]; reflexivity.
Qed.

(** A cycle has one result per target, made by [finish_result] from what
    the check of the target returned or raised, and one new row per
    result. *)
Lemma run_checks_from_spec (cfg : config) (obs : nat -> observation)
    (local utc : nat -> string) (ts : list target) :
  forall (i : nat) (d : Store.db),
  exists results new,
    run_checks_from cfg ts i obs local utc d =
      (results, Store.Db (Store.rows d ++ new)
                         (Store.seq d + Z.of_nat (List.length ts))) /\
    List.length results = List.length ts /\
    (forall n t, nth_error ts n = Some t ->
       nth_error results n =
         Some (finish_result t (App.check_target t (obs (i + n)%nat)
                                  (local (i + n)%nat)) (utc (i + n)%nat))) /\
    map Store.cols new =
      map (fun tr => cols_of_result cfg (fst tr) (snd tr)) (combine ts results).
Proof.
  induction ts as [|t ts IH]; intros i d.
  - exists [], []. simpl. rewrite app_nil_r, Z.add_0_r. destruct d.
    repeat split. intros [|n] t; discriminate.
  - cbn [run_checks_from]. unfold try_insert. rewrite insert_result.
    set (r := finish_result t (App.check_target t (obs i) (local i)) (utc i)).
    destruct (IH (S i) (Store.sql_insert (cols_of_result cfg t r) d))
      as (results & new & -> & Hlen & Hnth & Hcols).
    exists (r :: results), (Store.Row (Store.seq d + 1) (cols_of_result cfg t r) :: new).
    split; [|split; [|split]].
    + simpl. rewrite <- app_assoc. simpl. do 2 f_equal. lia.
    + simpl. now rewrite Hlen.
    + intros [|n] t' Hn; simpl in *.
      * injection Hn as <-. subst r. now rewrite Nat.add_0_r.
      * rewrite (Hnth n t' Hn). now rewrite Nat.add_succ_r.
    + simpl. now rewrite Hcols.
Qed.

(** What the claim C8 says of the scheduler of app.py: the check of a
    target that raises becomes an [offline] result with the text of the
    exception as error, and the cycle still has a result and a row for
    every target. *)
Lemma run_checks_survives_raise (cfg : config) (obs : nat -> observation)
    (local utc : nat -> string) (d : Store.db) (n : nat) (t : target) (e : exn) :
  nth_error (targets cfg) n = Some t ->
  App.check_target t (obs n) (local n) = Raise e ->
  exists results new,
    run_checks cfg obs local utc d =
      (results, Store.Db (Store.rows d ++ new)
                         (Store.seq d + Z.of_nat (List.length (targets cfg)))) /\
    nth_error results n =
      Some (App.mkCheckResult (t_name t) "offline" 0 (utc n) (Some (text e)) None) /\
    List.length results = List.length (targets cfg) /\
    map Store.cols new =
      map (fun tr => cols_of_result cfg (fst tr) (snd tr))
          (combine (targets cfg) results).
Proof.
  intros Hn He. unfold run_checks.
  destruct (run_checks_from_spec cfg obs local utc (targets cfg) 0%nat d)
    as (results & new & E & Hlen & Hnth & Hcols).
  exists results, new. split; [exact E|]. split; [|split; assumption].
  rewrite (Hnth n t Hn). simpl. now rewrite He.
Qed.

End WithPlatform.


(** C7 (the code at the input on which it departs from the claim). A
    request with the configured key whose body has a number under [checks],
    so no list of checks: the key test and the payload test both pass, the
    loop over the number raises TypeError, and the request ends in neither
    400 nor 200. A text under [checks] is answered 200 with received = 0. *)
Theorem ingest_checks_not_a_list :
  Collector.key_rejected Sample.collector_cfg Sample.checks_is_number = false /\
  @api_ingest Sample.platform Sample.collector_cfg Sample.checks_is_number
    Sample.clock Sample.table
    = (Raise (Exn TypeError "object is not iterable"), Sample.table) /\
  @api_ingest Sample.platform Sample.collector_cfg
    (Request (Some "s3cret") (JObj [("checks", JStr "ab")]))
    Sample.clock Sample.table
    = (Ret (ok 0), Sample.table).
Proof. repeat split. Qed.


(** C8 (the code at the input on which it departs from the claim). Three
    targets, the second a [dns] target whose check raises: the scheduler of
    app.py gives it an [offline] result with the text of the exception and
    persists three rows, but the agent's cycle raises the exception at
    [await], returns no result for any target, and the turn of [main_loop]
    ends before anything is sent. *)
Theorem agent_cycle_aborts :
  Agent.run_target Sample.resolver Sample.no_dig (Sample.clock 1)
    = Raise Sample.label_error /\
  Agent.run_cycle (targets Sample.three_targets) (fun _ => Sample.no_dig)
    Sample.clock [0%nat; 2%nat; 1%nat] = Raise Sample.label_error /\
  Agent.main_loop_turn (targets Sample.three_targets) (fun _ => Sample.no_dig)
    Sample.clock [0%nat; 2%nat; 1%nat] (fun _ => Ret 200)
    = Raise Sample.label_error /\
  map (fun r => (App.target_name r, App.status r, App.error r))
      (fst (@run_checks Sample.platform Sample.three_targets
              (fun _ => Sample.no_dig) Sample.clock Sample.clock Store.init_db))
    = [("web", "online", None);
       ("resolver", "offline", Some (text Sample.label_error));
       ("svc", "online", None)] /\
  List.length (Store.rows
     (snd (@run_checks Sample.platform Sample.three_targets
             (fun _ => Sample.no_dig) Sample.clock Sample.clock Store.init_db)))
    = 3%nat.
Proof. repeat split. Qed.

End CollectorProofs.

(** * Further properties of the code *)

(** ** The reporter *)

(** X1. What a run of [send_batch] does is fixed by the first attempt the
    collector accepts: accepted at attempt k (counted from 0), it posts
    k + 1 times, sleeps 1, 2, ..., 2^(k-1) seconds, 2^k - 1 in all, and
    returns True; accepted at none of the five, it posts five times, sleeps
    after every one of them, the last time for 16 seconds and 31 seconds in
    all, and returns False. *)
Theorem send_batch_by_first_accepted (collector : nat -> Agent.reply) :
  match first_accepted collector with
  | Some k =>
      fst (Agent.send_batch collector) = true /\
      posts (snd (Agent.send_batch collector)) = S k /\
      sleeps (snd (Agent.send_batch collector)) =
        map (fun n => 2 ^ Z.of_nat n) (seq 0 k) /\
      total_sleep (snd (Agent.send_batch collector)) = 2 ^ Z.of_nat k - 1
  | None =>
      fst (Agent.send_batch collector) = false /\
      posts (snd (Agent.send_batch collector)) = 5%nat /\
      sleeps (snd (Agent.send_batch collector)) = [1; 2; 4; 8; 16] /\
      total_sleep (snd (Agent.send_batch collector)) = 31
  end.
Proof.
  unfold first_accepted, Agent.send_batch. cbn [seq find Agent.send_attempts].
  destruct (Agent.accepted (collector 0%nat)); [repeat split|].
  destruct (Agent.accepted (collector 1%nat)); [repeat split|].
  destruct (Agent.accepted (collector 2%nat)); [repeat split|].
  destruct (Agent.accepted (collector 3%nat)); [repeat split|].
  destruct (Agent.accepted (collector 4%nat)); repeat split.
Qed.

(** ** The two check pipelines *)

Lemma derive_status_same (s : bool) (l : Q) :
  App.derive_status s l = Agent.derive_status s l.
Proof.
  unfold App.derive_status, Agent.derive_status, Qgtb.
  destruct s; simpl; [|reflexivity]. now destruct (Qle_bool l 500).
Qed.

Lemma ping_same (o : ping_obs) :
  let '(s, l, e) := App.ping_host o in Agent.ping_host o = (s, l, e, None).
Proof.
  destruct o as [rc [avg|n|t ts| |e]|e]; simpl;
    try (destruct (rc =? 0)); try reflexivity;
    destruct (cls e); reflexivity.
Qed.

Lemma http_same (o : http_obs) :
  fst (App.check_http o) = fst (Agent.check_http o).
Proof.
  destruct o as [code ct elapsed|e]; simpl.
  - now destruct ((200 <=? code) && (code <? 400)).
  - now destruct (cls e).
Qed.

(** The two [check_dns] differ in one handler: app.py answers "Timeout" to
    [subprocess.TimeoutExpired], the agent has no clause for it. *)
Lemma dns_same (o : dns_obs) :
  match App.check_dns o, Agent.check_dns o with
  | Ret (s, l, e), Ret (s', l', e', d') => s = s' /\ l = l' /\ d' = None
  | Raise x, Raise x' => x = x'
  | _, _ => False
  end.
Proof.
  destruct o as [rc nonblank elapsed|e [elapsed|e']]; simpl.
  - now destruct ((rc =? 0) && nonblank).
  - now destruct (cls e).
  - destruct (cls e); auto; destruct (cls e'); auto.
Qed.

Lemma probes_agree (t : target) (o : observation) :
  match App.run_probe t o, Agent.run_probe t o with
  | Ret r, Ret r' =>
      success r = success r' /\ latency r = latency r' /\
      (known_type (target_type t) = true ->
       (target_type t =? "dns")%string = false -> perror r = perror r')
  | Raise e, Raise e' => e = e'
  | _, _ => False
  end.
Proof.
  unfold App.run_probe, Agent.run_probe, known_type.
  destruct (target_type t =? "ping")%string eqn:Ep.
  { apply String.eqb_eq in Ep. rewrite Ep. cbn [String.eqb Ascii.eqb Bool.eqb].
    pose proof (ping_same (ping_o o)) as P.
    destruct (App.ping_host (ping_o o)) as [[s l] e]. rewrite P. simpl. auto. }
  destruct (target_type t =? "http")%string eqn:Eh.
  { pose proof (http_same (http_o o)) as P.
    destruct (App.check_http (http_o o)) as [[[s l] e] d].
    destruct (Agent.check_http (http_o o)) as [[[s' l'] e'] d'].
    simpl in *. injection P as -> -> ->. auto. }
  destruct (target_type t =? "tcp")%string eqn:Et.
  { change (Agent.check_tcp (tcp_o o)) with (App.check_tcp (tcp_o o)).
    destruct (App.check_tcp (tcp_o o)) as [[s l] e].
    simpl. auto. }
  destruct (target_type t =? "dns")%string eqn:Ed.
  { pose proof (dns_same (dns_o o)) as P.
    destruct (App.check_dns (dns_o o)) as [[[s l] e]|x];
      destruct (Agent.check_dns (dns_o o)) as [[[[s' l'] e'] d']|x'];
      simpl in *; try contradiction; auto.
    destruct P as (-> & -> & ->). split; [reflexivity|]. split; [reflexivity|].
    intros _ ?; discriminate. }
  simpl. split; [reflexivity|]. split; [reflexivity|]. discriminate.
Qed.

(** X2. For every target and observation the check of app.py and that of
    the agent end alike: both raise the same exception, or both return, with
    the same target name, status and recorded latency, and, for a ping, http
    or tcp target, the same error. *)
Theorem pipelines_agree (t : target) (o : observation) (now utc : string) :
  match App.check_target t o now, Agent.run_target t o utc with
  | Ret c, Ret a =>
      App.target_name c = Agent.target_name a /\
      App.status c = Agent.status a /\
      App.latency_ms c = Agent.latency_ms a /\
      (known_type (target_type t) = true ->
       (target_type t =? "dns")%string = false ->
       App.error c = Agent.error a)
  | Raise e, Raise e' => e = e'
  | _, _ => False
  end.
Proof.
  unfold App.check_target, Agent.run_target.
  pose proof (probes_agree t o) as P.
  destruct (App.run_probe t o) as [r|e], (Agent.run_probe t o) as [r'|e'];
    simpl in *; try contradiction; [|exact P].
  destruct P as (Hs & Hl & He). rewrite Hs, Hl.
  repeat split; [apply derive_status_same|exact He].
Qed.

(** Every [return] of a probe that reports failure gives an error text. *)
Lemma app_probe_failure_has_error (t : target) (o : observation)
    (r : probe_result) :
  known_type (target_type t) = true ->
  App.run_probe t o = Ret r -> success r = false -> perror r <> None.
Proof.
  unfold App.run_probe, known_type.
  destruct (target_type t =? "ping")%string.
  { intros _. destruct o as [[rc [avg|n|x xs| |e]|e] ? ? ?]; simpl;
      try (destruct (rc =? 0)); try (destruct (cls e));
      intros [= <-]; simpl; congruence. }
  destruct (target_type t =? "http")%string.
  { intros _. destruct o as [? [code ct elapsed|e] ? ?]; simpl;
      try (destruct ((200 <=? code) && (code <? 400)));
      try (destruct (cls e)); intros [= <-]; simpl; congruence. }
  destruct (target_type t =? "tcp")%string.
  { intros _. destruct o as [? ? [result elapsed|e] ?]; simpl;
      try (destruct (result =? 0)); try (destruct (cls e));
      intros [= <-]; simpl; congruence. }
  destruct (target_type t =? "dns")%string; [|discriminate].
  intros _. destruct o as [? ? ? [rc nonblank elapsed|e [elapsed|e']]]; simpl;
    try (destruct ((rc =? 0) && nonblank)); try (destruct (cls e));
    try (destruct (cls e')); simpl; try discriminate;
    intros [= <-]; simpl; congruence.
Qed.

Lemma agent_probe_failure_has_error (t : target) (o : observation)
    (r : probe_result) :
  Agent.run_probe t o = Ret r -> success r = false -> perror r <> None.
Proof.
  unfold Agent.run_probe.
  destruct (target_type t =? "http")%string.
  { destruct o as [? [code ct elapsed|e] ? ?]; simpl;
      try (destruct ((200 <=? code) && (code <? 400)));
      try (destruct (cls e)); intros [= <-]; simpl; congruence. }
  destruct (target_type t =? "ping")%string.
  { destruct o as [[rc [avg|n|x xs| |e]|e] ? ? ?]; simpl;
      try (destruct (rc =? 0)); try (destruct (cls e));
      intros [= <-]; simpl; congruence. }
  destruct (target_type t =? "tcp")%string.
  { destruct o as [? ? [result elapsed|e] ?]; simpl;
      try (destruct (result =? 0)); try (destruct (cls e));
      intros [= <-]; simpl; congruence. }
  destruct (target_type t =? "dns")%string.
  { destruct o as [? ? ? [rc nonblank elapsed|e [elapsed|e']]]; simpl;
      try (destruct ((rc =? 0) && nonblank)); try (destruct (cls e));
      try (destruct (cls e')); simpl; try discriminate;
      intros [= <-]; simpl; congruence. }
  intros [= <-]; simpl; congruence.
Qed.

Lemma app_status_offline (s : bool) (l : Q) :
  App.derive_status s l = "offline" <-> s = false.
Proof.
  unfold App.derive_status. destruct s; [|tauto].
  destruct (Qgtb l 500); split; discriminate.
Qed.

Lemma agent_status_offline (s : bool) (l : Q) :
  Agent.derive_status s l = "offline" <-> s = false.
Proof.
  unfold Agent.derive_status. destruct s; simpl; [|tauto].
  destruct (Qle_bool l 500); split; discriminate.
Qed.

(** X3. An outcome is [offline] exactly when it carries an error text: in
    the agent for every target, in app.py for every target of one of the four
    types (a target of another type is [offline] there with no error). *)
Theorem offline_iff_error (t : target) (o : observation) (now utc : string)
    (c : App.CheckResult) (a : Agent.check) :
  App.check_target t o now = Ret c ->
  Agent.run_target t o utc = Ret a ->
  (Agent.status a = "offline" <-> Agent.error a <> None) /\
  (known_type (target_type t) = true ->
   (App.status c = "offline" <-> App.error c <> None)) /\
  (known_type (target_type t) = false ->
   App.status c = "offline" /\ App.error c = None).
Proof.
  intros Hc Ha.
  apply app_check_target_inv in Hc as (r & Hr & ->).
  apply agent_run_target_inv in Ha as (r' & Hr' & ->). simpl.
  split; [|split].
  - rewrite agent_status_offline. split.
    + now apply (agent_probe_failure_has_error t o).
    + intro He. destruct (success r') eqn:S; [|reflexivity].
      exfalso. apply He. now apply (agent_probe_no_error t o).
  - intro K. rewrite app_status_offline. split.
    + now apply (app_probe_failure_has_error t o).
    + intro He. destruct (success r) eqn:S; [|reflexivity].
      exfalso. apply He. now apply (app_probe_no_error t o).
  - intro K. destruct (unknown_type_offline t o now now K) as [E _].
    unfold App.check_target in E. rewrite Hr in E. simpl in E.
    injection E as E1 _ E2 _. split; [exact E1|exact E2].
Qed.

Lemma offline_iff_error_witness :
  exists c a,
    App.check_target Sample.svc Sample.quiet "2024-05-01T12:00:00" = Ret c /\
    Agent.run_target Sample.svc Sample.quiet "2024-05-01T10:00:00+00:00" = Ret a /\
    App.status c = "offline" /\ App.error c <> None /\ Agent.error a <> None.
Proof.
  eexists. eexists. split; [reflexivity|]. split; [reflexivity|].
  destruct (offline_iff_error Sample.svc Sample.quiet "2024-05-01T12:00:00"
              "2024-05-01T10:00:00+00:00" _ _ eq_refl eq_refl)
    as (Hag & Happ & _).
  split; [reflexivity|]. split.
  - apply (Happ eq_refl). reflexivity.
  - apply Hag. reflexivity.
Defined.

(** ** The recorded latency *)

Lemma round_half_even_near (q : Q) :
  (inject_Z (round_half_even q) - (1 # 2) <= q /\
   q <= inject_Z (round_half_even q) + (1 # 2))%Q.
Proof.
  unfold round_half_even.
  pose proof (Qfloor_le q) as Hlo. pose proof (Qlt_floor q) as Hhi.
  rewrite inject_Z_plus in Hhi. change (inject_Z 1) with 1%Q in Hhi.
  destruct (Qcompare (q - inject_Z (Qfloor q)) (1 # 2)) eqn:C.
  - apply Qeq_alt in C.
    destruct (Z.even (Qfloor q));
      [|rewrite inject_Z_plus; change (inject_Z 1) with 1%Q]; split; lra.
  - apply Qlt_alt in C. split; lra.
  - apply Qgt_alt in C. rewrite inject_Z_plus. change (inject_Z 1) with 1%Q.
    split; lra.
Qed.

Lemma hundredths (z : Z) : (z # 100 == inject_Z z * (1 # 100))%Q.
Proof. unfold Qeq, inject_Z, Qmult. simpl. lia. Qed.

(** [round(x, 2)] is within half a hundredth of [x], is not negative when
    [x] is not, and lies on the same side of 500 as [x] unless it is 500. *)
Lemma round2_near (l : Q) :
  (round2 l - l <= 1 # 200)%Q /\ (l - round2 l <= 1 # 200)%Q /\
  ((0 <= l)%Q -> (0 <= round2 l)%Q) /\
  ((500 < round2 l)%Q -> (500 < l)%Q) /\
  ((round2 l < 500)%Q -> (l < 500)%Q).
Proof.
  unfold round2. destruct (round_half_even_near (l * 100)) as [Hlo Hhi].
  set (z := round_half_even (l * 100)) in *.
  pose proof (hundredths z) as Hz.
  split; [lra|]. split; [lra|]. split; [|split].
  - intro H0. assert (Hn : (- (1 # 2) <= inject_Z z)%Q) by lra.
    assert (0 <= z) by (unfold Qle, inject_Z in Hn; simpl in Hn; lia).
    unfold Qle. simpl. lia.
  - intro H. assert (Hn : (50000 < z)).
    { unfold Qlt in H. simpl in H. lia. }
    assert (Hq : (inject_Z 50001 <= inject_Z z)%Q).
    { rewrite <- Zle_Qle. lia. }
    change (inject_Z 50001) with 50001%Q in Hq. lra.
  - intro H. assert (Hn : (z < 50000)).
    { unfold Qlt in H. simpl in H. lia. }
    assert (Hq : (inject_Z z <= inject_Z 49999)%Q).
    { rewrite <- Zle_Qle. lia. }
    change (inject_Z 49999) with 49999%Q in Hq. lra.
Qed.

(** X4. The latency recorded in an outcome differs from the measured one by
    at most 0.005 ms and is not negative when the measured one is not. For a
    check that succeeded, a recorded latency above 500 comes with [degraded]
    and one below 500 with [online], in both programs; only at a recorded
    500.00 does the status depend on the digits rounded away. *)
Theorem recorded_latency_rule (t : target) (o : observation) (now utc : string)
    (rp ra : probe_result) (c : App.CheckResult) (a : Agent.check) :
  App.run_probe t o = Ret rp ->
  Agent.run_probe t o = Ret ra ->
  App.check_target t o now = Ret c ->
  Agent.run_target t o utc = Ret a ->
  (App.latency_ms c - latency rp <= 1 # 200)%Q /\
  (latency rp - App.latency_ms c <= 1 # 200)%Q /\
  ((0 <= latency rp)%Q -> (0 <= App.latency_ms c)%Q) /\
  (success rp = true -> (500 < App.latency_ms c)%Q -> App.status c = "degraded") /\
  (success rp = true -> (App.latency_ms c < 500)%Q -> App.status c = "online") /\
  (success ra = true -> (500 < Agent.latency_ms a)%Q -> Agent.status a = "degraded") /\
  (success ra = true -> (Agent.latency_ms a < 500)%Q -> Agent.status a = "online").
Proof.
  intros Hp Ha Hc Hr.
  rewrite (app_check_target_ret t o now rp Hp) in Hc. injection Hc as <-.
  rewrite (agent_run_target_ret t o utc ra Ha) in Hr. injection Hr as <-.
  simpl.
  destruct (round2_near (latency rp)) as (H1 & H2 & H3 & H4 & H5).
  destruct (round2_near (latency ra)) as (_ & _ & _ & H4' & H5').
  destruct (app_status_rule (success rp) (latency rp)) as (Rd & Ro & _).
  destruct (agent_status_rule (success ra) (latency ra)) as (Rd' & Ro' & _).
  repeat split; auto.
  - intros S L. apply Ro; [exact S|]. apply Qlt_le_weak. auto.
  - intros S L. apply Ro'; [exact S|]. apply Qlt_le_weak. auto.
Qed.

Lemma recorded_latency_rule_witness :
  exists c,
    App.check_target Sample.web Sample.quiet "2024-05-01T12:00:00" = Ret c /\
    (App.latency_ms c - 120 <= 1 # 200)%Q /\ App.status c = "online".
Proof.
  eexists. split; [reflexivity|].
  destruct (recorded_latency_rule Sample.web Sample.quiet "2024-05-01T12:00:00"
              "2024-05-01T10:00:00+00:00" _ _ _ _
              eq_refl eq_refl eq_refl eq_refl)
    as (H1 & _ & _ & _ & H5 & _).
  split; [exact H1|]. apply H5; reflexivity.
Defined.

(** ** The table over its history *)

Module StoreHistory.
Import Store.

(** One statement keeps the rows it does not delete, and gives a new row an
    id above every id given before. *)
Lemma execute_rows (d : db) (s : statement) (r : row) :
  primary_key d ->
  In r (rows (execute d s)) ->
  seq d <= seq (execute d s) /\
  (In r (rows d) \/ seq d < id r <= seq (execute d s)).
Proof.
  intros [_ Hle]. destruct s as [c|cutoff]; simpl.
  - intro Hin. split; [lia|]. apply in_app_or in Hin as [Hin|[<-|[]]].
    + now left.
    + right. simpl. lia.
  - intro Hin. split; [lia|]. apply filter_In in Hin. tauto.
Qed.

Lemma primary_key_execute (d : db) (s : statement) :
  primary_key d -> primary_key (execute d s).
Proof.
  destruct s; simpl;
    [apply StoreProofs.primary_key_insert|apply StoreProofs.primary_key_delete].
Qed.

Lemma primary_key_execute_all (history : list statement) (d : db) :
  primary_key d -> primary_key (execute_all history d).
Proof.
  revert d. induction history as [|s history IH]; intros d H; simpl; [exact H|].
  apply IH. now apply primary_key_execute.
Qed.

Lemma execute_all_rows (history : list statement) :
  forall (d : db) (r : row),
  primary_key d ->
  In r (rows (execute_all history d)) ->
  seq d <= seq (execute_all history d) /\
  (In r (rows d) \/ seq d < id r <= seq (execute_all history d)).
Proof.
  induction history as [|s history IH]; intros d r Hpk Hin; simpl in *.
  - split; [lia|now left].
  - destruct (IH (execute d s) r (primary_key_execute d s Hpk) Hin) as [Hseq Hr].
    assert (Hmono : seq d <= seq (execute d s)).
    { destruct s; simpl; lia. }
    split; [lia|]. destruct Hr as [Hr|Hr].
    + destruct (execute_rows d s r Hpk Hr) as [_ [H|H]]; [now left|right; lia].
    + right. lia.
Qed.

(** X5. Whatever inserts and deletes have been executed since the table
    was created, its ids are unique and at most the counter, and an id is
    given once and for all: a row present at some time and a row present at
    any later time have the same id only if they are the same row, so the id
    of a deleted row never comes back. *)
Theorem ids_are_never_reused (before after : list statement)
    (r r' : row) :
  In r (rows (execute_all before init_db)) ->
  In r' (rows (execute_all (before ++ after) init_db)) ->
  primary_key (execute_all (before ++ after) init_db) /\
  (id r = id r' -> r = r').
Proof.
  intros Hr Hr'.
  split; [apply primary_key_execute_all, StoreProofs.primary_key_init|].
  unfold execute_all in *. rewrite fold_left_app in Hr'.
  pose proof (primary_key_execute_all before init_db StoreProofs.primary_key_init)
    as Hpk.
  unfold execute_all in Hpk.
  destruct (execute_all_rows after _ r' Hpk Hr') as [_ [Hin|Hid]].
  - apply (StoreProofs.id_injective _ r r' (proj1 Hpk) Hr Hin).
  - intro E. destruct Hpk as [_ Hle]. rewrite Forall_forall in Hle.
    specialize (Hle r Hr). lia.
Qed.

Lemma ids_are_never_reused_witness :
  primary_key
    (execute_all
       ([Insert (Sample.cols "a1" "web" "2024-05-01T10:00:00+00:00" "online")] ++
        [DeleteBefore "2024-05-02";
         Insert (Sample.cols "a1" "web" "2024-05-02T10:00:00+00:00" "online")])
       init_db) /\
  (id (Row 1 (Sample.cols "a1" "web" "2024-05-01T10:00:00+00:00" "online")) =
   id (Row 2 (Sample.cols "a1" "web" "2024-05-02T10:00:00+00:00" "online")) ->
   Row 1 (Sample.cols "a1" "web" "2024-05-01T10:00:00+00:00" "online") =
   Row 2 (Sample.cols "a1" "web" "2024-05-02T10:00:00+00:00" "online")).
Proof.
  apply ids_are_never_reused; simpl; auto.
Defined.

(** A row is returned by the latest-per-key query exactly when no row of
    its key has a larger id. *)
Lemma latest_rows_spec (d : db) (r : row) :
  NoDup (map id (rows d)) ->
  In r (latest_rows d) <->
  In r (rows d) /\
  forall r', In r' (rows d) -> key_of r' = key_of r -> id r' <= id r.
Proof.
  intro Hnd. rewrite (StoreProofs.latest_rows_filter d Hnd), filter_In.
  split.
  - intros [Hr Hex]. split; [exact Hr|].
    apply existsb_exists in Hex as (m & Hm & E). apply Z.eqb_eq in E. subst m.
    apply StoreProofs.group_max_ids_In in Hm as (k & _ & M).
    destruct (StoreProofs.max_id_Some k (rows d) (id r) M)
      as [(x & Hx & Hk & Hid) Hle].
    assert (x = r) by (apply (StoreProofs.id_injective (rows d)); auto). subst x.
    intros r' Hr' Hk'. apply Hle; congruence.
  - intros [Hr Hmax]. split; [exact Hr|].
    apply existsb_exists. exists (id r). split; [|apply Z.eqb_refl].
    apply StoreProofs.group_max_ids_In. exists (key_of r).
    split; [now apply in_map|].
    destruct (StoreProofs.max_id_present (key_of r) (rows d)) as [m M];
      [now apply in_map|].
    destruct (StoreProofs.max_id_Some (key_of r) (rows d) m M)
      as [(x & Hx & Hk & Hid) Hle].
    specialize (Hle r Hr eq_refl). specialize (Hmax x Hx Hk).
    rewrite M. f_equal. lia.
Qed.

(** X6. After a row is inserted, the latest-per-key query returns that row
    for its pair (agent_id, target_name) and, for every other pair, the row
    it returned before. *)
Theorem latest_after_insert (d : db) (c : check_cols) (x : row) :
  primary_key d ->
  In x (latest_rows (sql_insert c d)) <->
  x = Row (seq d + 1) c \/
  (In x (latest_rows d) /\ key_of x <> key_of (Row (seq d + 1) c)).
Proof.
  intros Hpk.
  pose proof (StoreProofs.primary_key_insert c d Hpk) as [Hnd' _].
  destruct Hpk as [Hnd Hle]. rewrite Forall_forall in Hle.
  rewrite (latest_rows_spec _ x Hnd'), (latest_rows_spec d x Hnd). simpl.
  split.
  - intros [Hin Hmax]. apply in_app_or in Hin as [Hin|[<-|[]]]; [|now left].
    right. split; [split; [exact Hin|]|].
    + intros r' Hr'. apply Hmax. apply in_or_app. now left.
    + intro Hk. specialize (Hle x Hin).
      assert (seq d + 1 <= id x); [|lia].
      apply (Hmax (Row (seq d + 1) c)); [apply in_or_app; right; now left|].
      now rewrite Hk.
  - intros [->|[[Hin Hmax] Hk]].
    + split; [apply in_or_app; right; now left|].
      intros r' Hr' _. apply in_app_or in Hr' as [Hr'|[<-|[]]]; simpl; [|lia].
      specialize (Hle r' Hr'). lia.
    + split; [apply in_or_app; now left|].
      intros r' Hr' Hk'. apply in_app_or in Hr' as [Hr'|[<-|[]]]; [auto|].
      congruence.
Qed.

Lemma latest_after_insert_witness :
  In (Row 7 (Sample.cols "a1" "web" "2024-05-01T09:00:00+00:00" "offline"))
     (latest_rows (sql_insert
        (Sample.cols "a1" "web" "2024-05-01T09:00:00+00:00" "offline")
        Sample.table)).
Proof.
  apply (latest_after_insert Sample.table
           (Sample.cols "a1" "web" "2024-05-01T09:00:00+00:00" "offline")).
  - split; [repeat constructor; simpl; intuition discriminate
           |repeat constructor; simpl; lia].
  - left. reflexivity.
Defined.


(** *** Sweeps *)

Lemma string_ltb_leb_trans (x y z : string) :
  (x <? y)%string = true -> (y <=? z)%string = true -> (x <? z)%string = true.
Proof.
  unfold String.ltb, String.leb. revert y z.
  induction x as [|a x IH]; intros [|b y] [|c z]; simpl; try congruence.
  unfold Ascii.compare.
  destruct (N.compare_spec (N_of_ascii a) (N_of_ascii b));
    destruct (N.compare_spec (N_of_ascii b) (N_of_ascii c));
    destruct (N.compare_spec (N_of_ascii a) (N_of_ascii c));
    intros Hxy Hyz; try discriminate; try reflexivity; try lia.
  eapply IH; eassumption.
Qed.

Lemma ts_before_mono (ts : option string) (c1 c2 : string) :
  (c1 <=? c2)%string = true ->
  ts_before ts c1 = true -> ts_before ts c2 = true.
Proof.
  destruct ts as [x|]; simpl; [|discriminate].
  intros H12 H1. now apply (string_ltb_leb_trans x c1 c2).
Qed.

(** X7. Two retention sweeps in a row, in either order, leave what the
    one with the later cutoff leaves alone; the counter of ids is not
    touched. *)
Theorem sweeps_compose (c1 c2 : string) (d : db) :
  (c1 <=? c2)%string = true ->
  sql_delete_before c2 (sql_delete_before c1 d) = sql_delete_before c2 d /\
  sql_delete_before c1 (sql_delete_before c2 d) = sql_delete_before c2 d /\
  seq (sql_delete_before c2 d) = seq d.
Proof.
  intro H12. unfold sql_delete_before. simpl.
  split; [|split; [|reflexivity]]; f_equal;
    rewrite StoreProofs.filter_and; apply filter_ext; intro r;
    destruct (ts_before (timestamp (cols r)) c1) eqn:E1;
    destruct (ts_before (timestamp (cols r)) c2) eqn:E2; try reflexivity;
    rewrite (ts_before_mono _ c1 c2 H12 E1) in E2; discriminate.
Qed.

Lemma sweeps_compose_witness :
  sql_delete_before "2024-05-01T10:01:00+00:00"
    (sql_delete_before "2024-05-01T10:00:10+00:00" Sample.table)
  = sql_delete_before "2024-05-01T10:01:00+00:00" Sample.table.
Proof.
  apply (sweeps_compose "2024-05-01T10:00:10+00:00" "2024-05-01T10:01:00+00:00").
  reflexivity.
Defined.

End StoreHistory.

(** ** Ingestion and the table *)

Module IngestStore.
Import Collector.

Section WithPlatform.
Context `{Platform}.

Lemma insert_check_timestamp (agent target : json) (v : Store.check_values)
    (d d' : Store.db) :
  Store.insert_check agent target v d = Ret d' ->
  exists c, d' = Store.sql_insert c d /\
            Store.bind_text (Store.v_timestamp v) = Ret (Store.timestamp c).
Proof.
  unfold Store.insert_check.
  destruct (Store.bind_text agent); cbn [bind]; [|discriminate].
  destruct (Store.bind_text (Store.v_target_name v)); cbn [bind]; [|discriminate].
  destruct (Store.bind_text (Store.target_field target "host")); cbn [bind];
    [|discriminate].
  destruct (Store.bind_text (Store.target_field target "type")); cbn [bind];
    [|discriminate].
  destruct (Store.bind_text (Store.v_status v)); cbn [bind]; [|discriminate].
  destruct (Store.bind_real (Store.v_latency_ms v)); cbn [bind]; [|discriminate].
  destruct (Store.bind_text (Store.v_timestamp v)); cbn [bind]; [|discriminate].
  destruct (Store.bind_text (Store.v_error v)); cbn [bind]; [|discriminate].
  destruct (Store.bind_text _); cbn [bind]; [|discriminate].
  intros [= <-]. eexists. split; reflexivity.
Qed.

Lemma null_timestamp_survives (history : list statement) :
  forall (d : Store.db) (r : Store.row),
  In r (Store.rows d) -> Store.timestamp (Store.cols r) = None ->
  In r (Store.rows (execute_all history d)).
Proof.
  induction history as [|s history IH]; intros d r Hin Hts; simpl; [exact Hin|].
  apply IH; [|exact Hts]. destruct s as [c|cutoff]; simpl.
  - apply in_or_app. now left.
  - apply filter_In. split; [exact Hin|]. now rewrite Hts.
Qed.

(** X8. A record of a batch with [timestamp: null] is persisted with a NULL
    timestamp (the default, the time of ingestion, is for a missing entry
    only), and no retention sweep ever deletes its row, whatever is inserted
    or swept afterwards. *)
Theorem null_timestamp_is_never_swept (agent : json)
    (fields : list (string * json)) (utc : string) (d : Store.db)
    (history : list statement) :
  bindable agent = true ->
  well_formed (JObj fields) = true ->
  assoc_last "timestamp" fields = Some JNull ->
  exists d' r,
    ingest_record agent (JObj fields) utc d = Ret d' /\
    In r (Store.rows d') /\
    Store.id r = Store.seq d + 1 /\
    Store.timestamp (Store.cols r) = None /\
    In r (Store.rows (execute_all history d')).
Proof.
  intros Hagent Hwf Hts.
  pose proof (CollectorProofs.ingest_record_spec agent (JObj fields) utc d Hagent)
    as Hrec.
  destruct (ingest_record agent (JObj fields) utc d) as [d'|e] eqn:E;
    [|congruence].
  unfold ingest_record, py_get in E. cbn [bind] in E. rewrite Hts in E.
  apply insert_check_timestamp in E as (c & -> & Hb). simpl in Hb.
  injection Hb as Hb.
  exists (Store.sql_insert c d), (Store.Row (Store.seq d + 1) c).
  split; [reflexivity|].
  assert (Hin : In (Store.Row (Store.seq d + 1) c)
                   (Store.rows (Store.sql_insert c d))).
  { simpl. apply in_or_app. right. now left. }
  split; [exact Hin|]. split; [reflexivity|]. split; [simpl; congruence|].
  apply null_timestamp_survives; [exact Hin|simpl; congruence].
Qed.


Lemma ingest_record_inserts (agent c : json) (utc : string) (d d' : Store.db) :
  ingest_record agent c utc d = Ret d' ->
  exists cols, d' = Store.sql_insert cols d.
Proof.
  destruct c as [| | | | |l|l]; try discriminate.
  unfold ingest_record, py_get. cbn [bind]. intro E.
  match type of E with
  | Store.insert_check ?a ?t ?v ?d = _ =>
      pose proof (CollectorProofs.insert_check_spec a t v d) as S
  end.
  rewrite E in S. tauto.
Qed.

Lemma ingest_loop_inserts (agent : json) (utc : nat -> string)
    (items : list json) :
  forall (i : nat) (n : Z) (d : Store.db),
  exists inserted,
    ingest_loop agent items i utc n d =
      (n + Z.of_nat (List.length inserted),
       execute_all (map Insert inserted) d) /\
    (List.length inserted <= List.length items)%nat.
Proof.
  induction items as [|c items IH]; intros i n d; simpl.
  - exists []. simpl. rewrite Z.add_0_r. split; [reflexivity|lia].
  - destruct (ingest_record agent c (utc i) d) as [d'|e] eqn:E.
    + apply ingest_record_inserts in E as (cols & ->).
      destruct (IH (S i) (n + 1) (Store.sql_insert cols d)) as (ins & -> & Hlen).
      exists (cols :: ins). simpl. split; [f_equal; lia|lia].
    + destruct (IH (S i) n d) as (ins & -> & Hlen).
      exists ins. split; [reflexivity|lia].
Qed.

(** X9. Whatever the request, the endpoint only appends: the table after
    it is the table before it followed by some inserted rows, so rows already
    stored are neither changed nor removed and ids stay unique. A 200
    response reports exactly the number of rows inserted; with a 401, a 400
    or an exception nothing is inserted. *)
Theorem ingest_only_appends (cfg : config) (rq : request) (utc : nat -> string)
    (d : Store.db) :
  exists inserted,
    snd (api_ingest cfg rq utc d) = execute_all (map Insert inserted) d /\
    (primary_key d -> primary_key (snd (api_ingest cfg rq utc d))) /\
    (fst (api_ingest cfg rq utc d) = Ret (ok (Z.of_nat (List.length inserted))) \/
     inserted = [] /\
     (fst (api_ingest cfg rq utc d) = Ret unauthorized \/
      fst (api_ingest cfg rq utc d) = Ret invalid_payload \/
      exists e, fst (api_ingest cfg rq utc d) = Raise e)).
Proof.
  assert (Hnone : forall (r : py response),
            (r = Ret unauthorized \/ r = Ret invalid_payload \/
             exists e, r = Raise e) ->
            exists inserted,
              snd (r, d) = execute_all (map Insert inserted) d /\
              (primary_key d -> primary_key (snd (r, d))) /\
              (fst (r, d) = Ret (ok (Z.of_nat (List.length inserted))) \/
               inserted = [] /\
               (fst (r, d) = Ret unauthorized \/ fst (r, d) = Ret invalid_payload \/
                exists e, fst (r, d) = Raise e))).
  { intros r Hr. exists []. simpl. split; [reflexivity|]. split; [auto|].
    right. split; [reflexivity|exact Hr]. }
  unfold api_ingest.
  destruct (key_rejected cfg rq); [apply Hnone; auto|].
  destruct (negb (truthy (payload rq))); [apply Hnone; auto|].
  destruct (has_checks (payload rq)) as [[|]|e]; [|apply Hnone; auto|apply Hnone; eauto].
  destruct (py_get (payload rq) "agent_id" (JStr "unknown")) as [agent|e];
    [|apply Hnone; eauto].
  destruct (checks <- py_get (payload rq) "checks" (JArr []);; py_iter checks)
    as [items|e]; [|apply Hnone; eauto].
  destruct (ingest_loop_inserts agent utc items 0%nat 0 d) as (inserted & -> & _).
  exists inserted. simpl. split; [reflexivity|]. split; [|now left].
  apply StoreHistory.primary_key_execute_all.
Qed.


(** X17. The endpoint answers 401 exactly when the request does not carry,
    as a non-empty header, the key of the configuration. In particular a
    collector configured with no key, or with an empty one, answers 401 to
    every request and stores nothing. *)
Theorem unauthorized_iff (cfg : config) (rq : request) (utc : nat -> string)
    (d : Store.db) :
  (fst (api_ingest cfg rq utc d) = Ret unauthorized <->
   ~ exists k, x_api_key rq = Some k /\ k <> "" /\ api_key cfg = Some k) /\
  (api_key cfg = None \/ api_key cfg = Some "" ->
   api_ingest cfg rq utc d = (Ret unauthorized, d)).
Proof.
  pose proof (CollectorProofs.key_rejected_iff cfg rq) as K.
  assert (R : key_rejected cfg rq = true <->
              ~ exists k, x_api_key rq = Some k /\ k <> "" /\ api_key cfg = Some k).
  { rewrite <- K. destruct (key_rejected cfg rq); split; congruence. }
  split.
  - rewrite <- R. unfold api_ingest.
    destruct (key_rejected cfg rq); [split; reflexivity|].
    split; [|discriminate]. intro E. exfalso.
    destruct (negb (truthy (payload rq))); [discriminate E|].
    destruct (has_checks (payload rq)) as [[|]|e]; try discriminate E.
    destruct (py_get (payload rq) "agent_id" (JStr "unknown")) as [agent|e];
      [|discriminate E].
    destruct (checks <- py_get (payload rq) "checks" (JArr []);; py_iter checks)
      as [items|e]; [|discriminate E].
    destruct (ingest_loop agent items 0 utc 0 d). discriminate E.
  - intro Hk. unfold api_ingest.
    assert (E : key_rejected cfg rq = true).
    { apply R. intros (k & _ & Hne & Hc). destruct Hk as [Hk|Hk]; congruence. }
    now rewrite E.
Qed.


Lemma insert_check_binds (agent target : json) (v : Store.check_values)
    (d d' : Store.db) :
  Store.insert_check agent target v d = Ret d' ->
  exists c, d' = Store.sql_insert c d /\
    Store.bind_text agent = Ret (Store.agent_id c) /\
    Store.bind_text (Store.v_target_name v) = Ret (Store.target_name c) /\
    Store.bind_text (Store.target_field target "host") = Ret (Store.host c) /\
    Store.bind_text (Store.target_field target "type") = Ret (Store.type c) /\
    Store.bind_text (Store.v_status v) = Ret (Store.status c) /\
    Store.bind_real (Store.v_latency_ms v) = Ret (Store.latency_ms c) /\
    Store.bind_text (Store.v_timestamp v) = Ret (Store.timestamp c) /\
    Store.bind_text (Store.v_error v) = Ret (Store.error c).
Proof.
  unfold Store.insert_check.
  destruct (Store.bind_text agent); cbn [bind]; [|discriminate].
  destruct (Store.bind_text (Store.v_target_name v)); cbn [bind]; [|discriminate].
  destruct (Store.bind_text (Store.target_field target "host")); cbn [bind];
    [|discriminate].
  destruct (Store.bind_text (Store.target_field target "type")); cbn [bind];
    [|discriminate].
  destruct (Store.bind_text (Store.v_status v)); cbn [bind]; [|discriminate].
  destruct (Store.bind_real (Store.v_latency_ms v)); cbn [bind]; [|discriminate].
  destruct (Store.bind_text (Store.v_timestamp v)); cbn [bind]; [|discriminate].
  destruct (Store.bind_text (Store.v_error v)); cbn [bind]; [|discriminate].
  destruct (Store.bind_text _); cbn [bind]; [|discriminate].
  intros [= <-]. eexists. repeat split.
Qed.

(** X18. A record of a batch may leave entries out: it is persisted all
    the same, with the time of ingestion for a missing [timestamp], 0.0 for a
    missing [latency_ms], and NULL for a missing [target_name], [status],
    [host], [type] or [error]. *)
Theorem missing_entries_get_defaults (agent : json)
    (fields : list (string * json)) (utc : string) (d : Store.db) :
  bindable agent = true ->
  well_formed (JObj fields) = true ->
  exists c,
    ingest_record agent (JObj fields) utc d = Ret (Store.sql_insert c d) /\
    (assoc_last "timestamp" fields = None -> Store.timestamp c = Some utc) /\
    (assoc_last "latency_ms" fields = None ->
     Store.latency_ms c = Store.RReal 0) /\
    (assoc_last "target_name" fields = None -> Store.target_name c = None) /\
    (assoc_last "status" fields = None -> Store.status c = None) /\
    (assoc_last "host" fields = None -> Store.host c = None) /\
    (assoc_last "type" fields = None -> Store.type c = None) /\
    (assoc_last "error" fields = None -> Store.error c = None).
Proof.
  intros Hagent Hwf.
  pose proof (CollectorProofs.ingest_record_spec agent (JObj fields) utc d Hagent)
    as Hrec.
  destruct (ingest_record agent (JObj fields) utc d) as [d'|e] eqn:E;
    [|congruence].
  unfold ingest_record, py_get in E. cbn [bind] in E.
  apply insert_check_binds in E
    as (c & -> & _ & Hn & Hh & Hty & Hst & Hl & Hts & He).
  exists c. split; [reflexivity|].
  cbn in Hts, Hn, Hh, Hty, Hst, Hl, He.
  repeat split; intro Hnone; rewrite Hnone in *; simpl in *; congruence.
Qed.

End WithPlatform.

Lemma null_timestamp_is_never_swept_witness :
  exists d' r,
    @ingest_record Sample.platform (JStr "a1")
      (JObj [("target_name", JStr "web"); ("status", JStr "online");
             ("timestamp", JNull)])
      "2024-05-01T10:03:01+00:00" Sample.table = Ret d' /\
    In r (Store.rows d') /\
    Store.id r = 7 /\
    Store.timestamp (Store.cols r) = None /\
    In r (Store.rows (execute_all [DeleteBefore "9999"] d')).
Proof.
  apply (@null_timestamp_is_never_swept Sample.platform (JStr "a1")
           [("target_name", JStr "web"); ("status", JStr "online");
            ("timestamp", JNull)]
           "2024-05-01T10:03:01+00:00" Sample.table [DeleteBefore "9999"]);
    reflexivity.
Defined.

Lemma missing_entries_get_defaults_witness :
  exists c,
    @ingest_record Sample.platform (JStr "a1") (JObj [("status", JStr "online")])
      "2024-05-01T10:03:01+00:00" Sample.table
      = Ret (Store.sql_insert c Sample.table) /\
    Store.timestamp c = Some "2024-05-01T10:03:01+00:00" /\
    Store.latency_ms c = Store.RReal 0 /\
    Store.target_name c = None.
Proof.
  destruct (@missing_entries_get_defaults Sample.platform (JStr "a1")
              [("status", JStr "online")] "2024-05-01T10:03:01+00:00"
              Sample.table eq_refl eq_refl)
    as (c & E & Hts & Hl & Hn & _).
  exists c. split; [exact E|].
  split; [apply Hts; reflexivity|]. split; [apply Hl; reflexivity|].
  apply Hn; reflexivity.
Defined.

End IngestStore.

(** ** The scheduler of app.py and the latest statuses *)

Module SchedulerStore.
Import Collector.

Section WithPlatform.
Context `{Platform}.

Lemma inserts_keep_rows (l : list Store.check_cols) :
  forall (d : Store.db) (r : Store.row),
  In r (Store.rows d) -> In r (Store.rows (execute_all (map Insert l) d)).
Proof.
  induction l as [|c l IH]; intros d r Hin; simpl; [exact Hin|].
  apply IH. simpl. apply in_or_app. now left.
Qed.

(** The rows of a table after a run of inserts: the rows it had, and one
    row above the old counter for each insert. *)
Lemma inserts_rows (l : list Store.check_cols) :
  forall (d : Store.db),
  (forall r, In r (Store.rows (execute_all (map Insert l) d)) ->
             In r (Store.rows d) \/
             (Store.seq d < Store.id r /\ In (Store.cols r) l)) /\
  (forall c, In c l ->
             exists r, In r (Store.rows (execute_all (map Insert l) d)) /\
                       Store.cols r = c /\ Store.seq d < Store.id r).
Proof.
  induction l as [|c l IH]; intros d; simpl.
  - split; [auto|intros c []].
  - destruct (IH (Store.sql_insert c d)) as [Hrows Hcols]. split.
    + intros r Hr. destruct (Hrows r Hr) as [Hin|[Hid Hin]].
      * simpl in Hin. apply in_app_or in Hin as [Hin|[<-|[]]]; [now left|].
        right. simpl. split; [lia|now left].
      * right. simpl in Hid. split; [lia|now right].
    + intros c' [<-|Hc'].
      * exists (Store.Row (Store.seq d + 1) c).
        split; [|simpl; split; [reflexivity|lia]].
        apply inserts_keep_rows. simpl. apply in_or_app. right. now left.
      * destruct (Hcols c' Hc') as (r & Hr & Hc & Hid).
        exists r. simpl in Hid. split; [exact Hr|]. split; [exact Hc|lia].
Qed.

Lemma finish_result_name (t : target) (o : observation) (now utc : string) :
  App.target_name (finish_result t (App.check_target t o now) utc) = t_name t.
Proof.
  unfold App.check_target. now destruct (App.run_probe t o).
Qed.

(** A cycle is a run of inserts, one per target, of the rows of its
    results; every result bears the name of its target. *)
Lemma run_checks_from_inserts (cfg : config) (obs : nat -> observation)
    (local utc : nat -> string) (ts : list target) :
  forall (i : nat) (d : Store.db),
  exists results,
    run_checks_from cfg ts i obs local utc d =
      (results,
       execute_all
         (map Insert (map (fun tr => cols_of_result cfg (fst tr) (snd tr))
                          (combine ts results))) d) /\
    List.length results = List.length ts /\
    (forall t r, In (t, r) (combine ts results) -> App.target_name r = t_name t).
Proof.
  induction ts as [|t ts IH]; intros i d.
  - exists []. simpl. repeat split. intros t r [].
  - cbn [run_checks_from]. unfold try_insert.
    rewrite CollectorProofs.insert_result.
    set (r := finish_result t (App.check_target t (obs i) (local i)) (utc i)).
    destruct (IH (S i) (Store.sql_insert (cols_of_result cfg t r) d))
      as (results & -> & Hlen & Hnames).
    exists (r :: results). simpl. split; [reflexivity|]. split; [now rewrite Hlen|].
    intros t' r' [[= <- <-]|Hin]; [apply finish_result_name|auto].
Qed.

(** X10. After a cycle of the scheduler, run on a table with unique ids,
    the latest-per-key query has, for every configured target, a row for the
    pair (agent id of the configuration, name of the target) that this cycle
    wrote: its id is above the counter before the cycle and its columns are
    those of a result of the cycle for a target of that name. *)
Theorem cycle_sets_latest (cfg : config) (obs : nat -> observation)
    (local utc : nat -> string) (d : Store.db) (t : target) :
  primary_key d ->
  In t (targets cfg) ->
  exists x t' r,
    In x (Store.latest_rows (snd (run_checks cfg obs local utc d))) /\
    Store.key_of x =
      (Some (match cfg_agent_id cfg with Some a => a | None => "local" end),
       Some (t_name t)) /\
    Store.seq d < Store.id x /\
    In (t', r) (combine (targets cfg) (fst (run_checks cfg obs local utc d))) /\
    t_name t' = t_name t /\
    Store.cols x = cols_of_result cfg t' r.
Proof.
  intros Hpk Ht. unfold run_checks.
  destruct (run_checks_from_inserts cfg obs local utc (targets cfg) 0%nat d)
    as (results & -> & Hlen & Hnames). simpl.
  set (l := map (fun tr => cols_of_result cfg (fst tr) (snd tr))
                (combine (targets cfg) results)).
  set (d' := execute_all (map Insert l) d).
  set (k := (Some (match cfg_agent_id cfg with Some a => a | None => "local" end),
             Some (t_name t)) : Store.key).
  assert (Hpk' : primary_key d') by now apply StoreHistory.primary_key_execute_all.
  destruct (inserts_rows l d) as [Hrows Hcols]. fold d' in Hrows, Hcols.
  (* the row this cycle wrote for [t] *)
  assert (Hr0 : exists r0, In (t, r0) (combine (targets cfg) results)).
  { apply In_nth_error in Ht as [n Hn].
    destruct (nth_error results n) as [r0|] eqn:E.
    - exists r0. clear - Hn E. revert results n Hn E.
      induction (targets cfg) as [|a ts IH]; intros [|b rs] [|n]; simpl;
        try discriminate.
      + intros [= ->] [= ->]. now left.
      + intros Hn E. right. eauto.
    - apply nth_error_None in E. apply nth_error_Some_lt in Hn || idtac.
      assert (n < List.length (targets cfg))%nat
        by (apply nth_error_Some; congruence).
      lia. }
  destruct Hr0 as [r0 Hr0].
  destruct (Hcols (cols_of_result cfg t r0)) as (y & Hy & Hcy & Hidy).
  { unfold l. apply in_map_iff. exists (t, r0). auto. }
  assert (Hky : Store.key_of y = k).
  { unfold Store.key_of. rewrite Hcy. simpl. now rewrite (Hnames t r0 Hr0). }
  (* the row of largest id for the pair *)
  destruct (StoreProofs.max_id_present k (Store.rows d')) as [m M].
  { apply in_map_iff. eauto. }
  destruct (StoreProofs.max_id_Some k (Store.rows d') m M)
    as [(x & Hx & Hkx & Hidx) Hmax].
  pose proof (Hmax y Hy Hky) as Hym.
  assert (Hnew : Store.seq d < Store.id x) by lia.
  destruct (Hrows x Hx) as [Hold|[_ Hin]].
  { destruct Hpk as [_ Hle]. rewrite Forall_forall in Hle.
    specialize (Hle x Hold). lia. }
  unfold l in Hin. apply in_map_iff in Hin as ([t' r] & Hc & Hin). simpl in Hc.
  exists x, t', r. split.
  { apply StoreHistory.latest_rows_spec; [exact (proj1 Hpk')|].
    split; [exact Hx|]. intros r' Hr' Hk'. rewrite Hidx. apply Hmax; congruence. }
  split; [exact Hkx|]. split; [exact Hnew|]. split; [exact Hin|].
  split; [|now rewrite Hc].
  unfold Store.key_of in Hkx. rewrite <- Hc in Hkx. simpl in Hkx.
  injection Hkx as Hn. rewrite (Hnames t' r Hin) in Hn. exact Hn.
Qed.

End WithPlatform.


Lemma cycle_sets_latest_witness :
  exists x t' r,
    In x (Store.latest_rows
            (snd (@run_checks Sample.platform Sample.three_targets
                    (fun _ => Sample.no_dig) Sample.clock Sample.clock
                    Store.init_db))) /\
    Store.key_of x = (Some "local", Some "resolver") /\
    Store.seq Store.init_db < Store.id x /\
    In (t', r) (combine (targets Sample.three_targets)
                  (fst (@run_checks Sample.platform Sample.three_targets
                          (fun _ => Sample.no_dig) Sample.clock Sample.clock
                          Store.init_db))) /\
    t_name t' = t_name Sample.resolver /\
    Store.cols x = @cols_of_result Sample.platform Sample.three_targets t' r.
Proof.
  apply (@cycle_sets_latest Sample.platform Sample.three_targets
           (fun _ => Sample.no_dig) Sample.clock Sample.clock Store.init_db
           Sample.resolver).
  - split; constructor.
  - simpl. auto.
Defined.

End SchedulerStore.

(** ** The read endpoints *)

Module ApiProofs.
Import Api.

Lemma counts_partition (l : list Store.check_cols) :
  (count_status "online" l + count_status "degraded" l +
   count_status "offline" l + List.length (filter foreign_status l)
   = List.length l)%nat.
Proof.
  unfold count_status, foreign_status.
  induction l as [|c l IH]; simpl; [reflexivity|].
  destruct (Store.status c) as [s|]; simpl; [|lia].
  destruct (s =? "online")%string eqn:E1.
  { apply String.eqb_eq in E1. subst s. simpl. lia. }
  destruct (s =? "degraded")%string eqn:E2.
  { apply String.eqb_eq in E2. subst s. simpl. lia. }
  destruct (s =? "offline")%string eqn:E3; simpl; lia.
Qed.

Lemma group_max_ids_length (l : list Store.row) :
  List.length (Store.group_max_ids l) = List.length (Store.distinct_keys l []).
Proof.
  unfold Store.group_max_ids.
  assert (Hin : forall k, In k (Store.distinct_keys l []) -> In k (map Store.key_of l)).
  { intros k Hk. now apply StoreProofs.distinct_keys_In in Hk. }
  induction (Store.distinct_keys l []) as [|k ks IH]; simpl; [reflexivity|].
  destruct (StoreProofs.max_id_present k l) as [m ->]; [apply Hin; now left|].
  simpl. f_equal. apply IH. intros k' Hk'. apply Hin. now right.
Qed.

Lemma latest_rows_length (d : Store.db) :
  NoDup (map Store.id (Store.rows d)) ->
  List.length (Store.latest_rows d) =
  List.length (Store.distinct_keys (Store.rows d) []).
Proof.
  intro Hnd. rewrite <- group_max_ids_length.
  rewrite <- (length_map Store.id).
  apply Permutation_length, NoDup_Permutation.
  - rewrite (StoreProofs.latest_rows_filter d Hnd).
    now apply StoreProofs.ids_unique_after_delete.
  - now apply StoreProofs.group_max_ids_NoDup.
  - intro m. rewrite (StoreProofs.latest_rows_filter d Hnd), in_map_iff. split.
    + intros (r & <- & Hr). apply filter_In in Hr as [_ Hr].
      apply existsb_exists in Hr as (m & Hm & E). apply Z.eqb_eq in E. now subst.
    + intro Hm. pose proof Hm as Hg.
      apply StoreProofs.group_max_ids_In in Hm as (k & _ & M).
      destruct (StoreProofs.max_id_Some k (Store.rows d) m M)
        as [(r & Hr & _ & Hid) _].
      exists r. split; [exact Hid|]. apply filter_In. split; [exact Hr|].
      apply existsb_exists. exists m. split; [exact Hg|]. now apply Z.eqb_eq.
Qed.

(** X11. In the summary, [total] is the number of distinct pairs
    (agent_id, target_name) in the table, and the three counts add up to it
    less the number of latest rows whose status is none of the three (a NULL
    or another text, which an ingested record may carry): such rows are
    counted in the total only. *)
Theorem summary_counts (d : Store.db) :
  primary_key d ->
  total (api_summary d) =
    List.length (Store.distinct_keys (Store.rows d) []) /\
  (online (api_summary d) + degraded (api_summary d) + offline (api_summary d) +
   List.length (filter foreign_status (Store.get_latest_statuses d))
   = total (api_summary d))%nat /\
  (online (api_summary d) + degraded (api_summary d) + offline (api_summary d)
   <= total (api_summary d))%nat.
Proof.
  intros [Hnd _]. unfold api_summary. simpl.
  pose proof (counts_partition (Store.get_latest_statuses d)) as P.
  split; [|split; [exact P|lia]].
  unfold Store.get_latest_statuses. rewrite length_map.
  now apply latest_rows_length.
Qed.

Lemma summary_counts_witness :
  api_summary Sample.table = Summary 3 2 0 1 /\
  total (api_summary Sample.table) =
    List.length (Store.distinct_keys (Store.rows Sample.table) []).
Proof.
  split; [reflexivity|].
  apply (summary_counts Sample.table).
  split; [repeat constructor; simpl; intuition discriminate
         |repeat constructor; simpl; lia].
Defined.


(** *** History of a target *)

Lemma history_list (loads : string -> option json) (window : list Store.row) :
  let history := map (history_of loads)
                     (rev (Store.order_by_timestamp_desc window)) in
  Permutation (map fst history) (map Store.cols window) /\
  StronglySorted
    (fun x y => Store.ts_leb (Store.timestamp (fst x)) (Store.timestamp (fst y)) = true)
    history /\
  (history = [] <-> window = []).
Proof.
  intro history. subst history.
  destruct (StoreProofs.order_by_timestamp_desc_ordered window) as [Hperm Hsorted].
  split; [|split].
  - rewrite map_map. simpl. apply Permutation_map.
    rewrite <- Permutation_rev. now apply Permutation_sym.
  - apply StoreProofs.StronglySorted_map. simpl.
    exact (StoreProofs.StronglySorted_rev _ _ Hsorted).
  - split; intro E.
    + apply (f_equal (@List.length _)) in E.
      rewrite length_map, length_rev, <- (Permutation_length Hperm) in E.
      now destruct window.
    + subst window. reflexivity.
Qed.

(** X12. [/api/target/<name>] with an [hours] parameter that is no integer,
    or so large that the cutoff is no date, ends in 500. Otherwise it answers
    404 exactly when no row of the table has the target name and a timestamp
    at or after the cutoff, and else 200 with these rows, of all agents and
    each once, in ascending order of timestamp. *)
Theorem api_target_cases `{Platform} (loads : string -> option json)
    (d : Store.db) (name : string) (hours_arg : option (py Z)) (now : Z) :
  match (h <- match hours_arg with Some h => h | None => Ret 24 end ;;
         hours_before now h) with
  | Raise e => api_target loads d name hours_arg now = Internal (text e)
  | Ret cutoff =>
      let window := filter (in_window name (isoformat cutoff)) (Store.rows d) in
      (api_target loads d name hours_arg now = NotFound <-> window = []) /\
      (window <> [] ->
       exists history,
         api_target loads d name hours_arg now = History name history /\
         Permutation (map fst history) (map Store.cols window) /\
         StronglySorted
           (fun x y => Store.ts_leb (Store.timestamp (fst x))
                                    (Store.timestamp (fst y)) = true) history)
  end.
Proof.
  unfold api_target, get_history.
  destruct (match hours_arg with Some h => h | None => Ret 24 end) as [h|e];
    cbn [bind]; [|reflexivity].
  destruct (hours_before now h) as [cutoff|e]; cbn [bind]; [|reflexivity].
  cbv zeta.
  set (window := filter (in_window name (isoformat cutoff)) (Store.rows d)).
  destruct (history_list loads window) as (Hperm & Hsorted & Hnil).
  destruct (map (history_of loads) (rev (Store.order_by_timestamp_desc window)))
    as [|x history] eqn:E.
  - split; [split; [intros _; now apply Hnil|reflexivity]|].
    intro Hne. exfalso. apply Hne. now apply Hnil.
  - split.
    + split; [discriminate|]. intro Hw. apply Hnil in Hw. discriminate.
    + intros _. exists (x :: history). auto.
Qed.


(** *** The status snapshot *)

Lemma status_limit_bounds (hours_arg : option (py Z)) :
  (60 <= status_limit hours_arg <= 1440)%nat.
Proof.
  unfold status_limit, status_hours.
  destruct hours_arg as [[h|e]|]; lia.
Qed.

Lemma dict_set_keys {V} (k : string) (v : V) (l : list (string * V)) (k' : string) :
  In k' (map fst (dict_set k v l)) <-> k' = k \/ In k' (map fst l).
Proof.
  induction l as [|[k0 v0] l IH]; simpl; [intuition|].
  destruct (k =? k0)%string eqn:E; simpl.
  - apply String.eqb_eq in E. subst k0. intuition.
  - rewrite IH. intuition.
Qed.

Lemma dict_set_NoDup {V} (k : string) (v : V) (l : list (string * V)) :
  NoDup (map fst l) -> NoDup (map fst (dict_set k v l)).
Proof.
  induction l as [|[k0 v0] l IH]; simpl; intro Hnd.
  - constructor; [intros []|constructor].
  - apply NoDup_cons_iff in Hnd as [Hnot Hnd].
    destruct (k =? k0)%string eqn:E; simpl.
    + apply String.eqb_eq in E. subst k0. now constructor.
    + apply String.eqb_neq in E. constructor; [|auto].
      rewrite dict_set_keys. intros [->|Hin]; [congruence|contradiction].
Qed.

Lemma dict_set_Forall {V} (P : string * V -> Prop) (k : string) (v : V)
    (l : list (string * V)) :
  P (k, v) -> Forall P l -> Forall P (dict_set k v l).
Proof.
  intro Hkv. induction 1 as [|[k0 v0] l Hx Hl IH]; simpl; [auto|].
  destruct (k =? k0)%string; constructor; auto.
Qed.

Lemma dict_set_length {V} (k : string) (v : V) (l : list (string * V)) :
  (List.length (dict_set k v l) <= S (List.length l))%nat.
Proof.
  induction l as [|[k0 v0] l IH]; simpl; [lia|].
  destruct (k =? k0)%string; simpl; lia.
Qed.

Lemma entry_history_length (d : Store.db) (c : Store.check_cols) (limit : nat) :
  (List.length (entry_history d c limit) <= limit)%nat.
Proof.
  unfold entry_history, Store.get_recent_history.
  destruct (Store.agent_id c), (Store.target_name c); simpl; try lia.
  rewrite length_map, length_rev. apply firstn_le_length.
Qed.

Lemma status_entries_spec (loads : string -> option json)
    (icons : list (string * string)) (d : Store.db) (limit : nat)
    (P : string * status_entry -> Prop) (rows : list Store.check_cols) :
  (forall r details, In r rows ->
     P (status_key r,
        StatusEntry r details (icon_of icons (Store.target_name r))
          (entry_history d r limit))) ->
  forall acc targets,
  NoDup (map fst acc) -> Forall P acc ->
  status_entries loads icons d limit rows acc = Ret targets ->
  NoDup (map fst targets) /\ Forall P targets /\
  (List.length targets <= List.length acc + List.length rows)%nat.
Proof.
  induction rows as [|r rows IH]; intros HP acc targets Hnd Hall; simpl.
  - intros [= <-]. repeat split; auto. lia.
  - destruct (current_details_of loads (Store.details r)) as [details|e];
      cbn [bind]; [|discriminate].
    intro E. apply IH in E.
    + destruct E as (H1 & H2 & H3). repeat split; auto.
      pose proof (dict_set_length (status_key r)
        (StatusEntry r details (icon_of icons (Store.target_name r))
           (entry_history d r limit)) acc). lia.
    + intros r' det Hr'. apply HP. now right.
    + now apply dict_set_NoDup.
    + apply dict_set_Forall; [apply HP; now left|exact Hall].
Qed.

(** X13. The window of [/api/status] is 60 times the [hours] parameter
    clamped to 1..24, so between 60 and 1440 rows, and 60 when the parameter
    is missing or is no integer. When the endpoint answers, its entries have
    distinct keys, are at most as many as the latest rows, and each holds a
    latest row as [current], under the key made of its agent_id and
    target_name, with a history of at most that many rows, which is empty
    when the agent_id or the target_name of the row is NULL. *)
Theorem api_status_entries (loads : string -> option json)
    (icons : list (string * string)) (d : Store.db)
    (hours_arg : option (py Z)) (targets : list (string * status_entry)) :
  api_status loads icons d hours_arg = Ret targets ->
  (60 <= status_limit hours_arg <= 1440)%nat /\
  (match hours_arg with
   | Some (Ret h) => True
   | _ => status_limit hours_arg = 60%nat
   end) /\
  NoDup (map fst targets) /\
  (List.length targets <= List.length (Store.get_latest_statuses d))%nat /\
  Forall (fun kv =>
            In (current (snd kv)) (Store.get_latest_statuses d) /\
            fst kv = status_key (current (snd kv)) /\
            (List.length (history (snd kv)) <= status_limit hours_arg)%nat /\
            (Store.agent_id (current (snd kv)) = None \/
             Store.target_name (current (snd kv)) = None ->
             history (snd kv) = []))
         targets.
Proof.
  intro E. split; [apply status_limit_bounds|].
  split; [destruct hours_arg as [[h|e]|]; auto|].
  unfold api_status in E.
  eapply status_entries_spec in E; [| |constructor|constructor].
  - destruct E as (H1 & H2 & H3). split; [exact H1|]. split; [exact H3|exact H2].
  - intros r details Hr. simpl. split; [exact Hr|]. split; [reflexivity|].
    split; [apply entry_history_length|].
    unfold entry_history. intros [->| ->]; [reflexivity|].
    now destruct (Store.agent_id r).
Qed.

Lemma api_status_entries_witness :
  exists targets,
    api_status (fun _ => None) [] Sample.table (Some (Ret 48)) = Ret targets /\
    status_limit (Some (Ret 48)) = 1440%nat /\
    map fst targets = ["a1 :: db"; "a2 :: web"; "a1 :: web"] /\
    NoDup (map fst targets).
Proof.
  eexists. split; [reflexivity|]. split; [reflexivity|]. split; [reflexivity|].
  apply (api_status_entries (fun _ => None) [] Sample.table (Some (Ret 48)) _ eq_refl).
Defined.

End ApiProofs.

(** ** Slugs *)

Module IconsProofs.
Import Icons.

Lemma alnum_not_dash (c : ascii) : is_alnum c = true -> is_dash c = false.
Proof.
  intro H. unfold is_dash. destruct (c =? "-")%char eqn:E; [|reflexivity].
  apply Ascii.eqb_eq in E. subst c. discriminate H.
Qed.

Lemma replace_runs_dashed (s : string) :
  forall b, dashed_from (replace_runs s b) b = true.
Proof.
  induction s as [|c s IH]; intro b; simpl; [reflexivity|].
  destruct (is_alnum c) eqn:A; simpl; [now rewrite A|].
  destruct b; simpl; [apply IH|]. apply IH.
Qed.

Lemma collapse_dashed (s : string) :
  forall b, dashed_from s b = true -> collapse_dashes s b = s.
Proof.
  induction s as [|c s IH]; intro b; simpl; [reflexivity|].
  destruct (is_alnum c) eqn:A.
  - rewrite (alnum_not_dash c A). intro H. now rewrite IH.
  - destruct (is_dash c) eqn:D; [|discriminate].
    destruct b; simpl; [discriminate|]. intro H.
    unfold is_dash in D. apply Ascii.eqb_eq in D. subst c. now rewrite IH.
Qed.

Lemma replace_runs_fixes (s : string) :
  forall b, dashed_from s b = true -> replace_runs s b = s.
Proof.
  induction s as [|c s IH]; intro b; simpl; [reflexivity|].
  destruct (is_alnum c) eqn:A.
  - intro H. now rewrite IH.
  - destruct (is_dash c) eqn:D; [|discriminate].
    destruct b; simpl; [discriminate|]. intro H.
    unfold is_dash in D. apply Ascii.eqb_eq in D. subst c. now rewrite IH.
Qed.

Lemma dashed_weaken (s : string) :
  dashed_from s true = true -> dashed_from s false = true.
Proof.
  destruct s as [|c s]; simpl; [reflexivity|].
  destruct (is_alnum c); [auto|]. destruct (is_dash c); [discriminate|auto].
Qed.

Lemma lstrip_dashed (s : string) :
  dashed_from s false = true -> dashed_from (lstrip s) true = true.
Proof.
  destruct s as [|c s]; simpl; [reflexivity|].
  destruct (is_alnum c) eqn:A.
  - rewrite (alnum_not_dash c A). simpl. now rewrite A.
  - destruct (is_dash c) eqn:D; [|discriminate]. simpl. intro H.
    destruct s as [|c' s]; simpl in *; [reflexivity|].
    destruct (is_alnum c') eqn:A'.
    + rewrite (alnum_not_dash c' A'). simpl. now rewrite A'.
    + destruct (is_dash c'); discriminate.
Qed.

Lemma rstrip_slug (s : string) :
  forall b, dashed_from s b = true ->
  rstrip s = "" \/ slug_from (rstrip s) b = true.
Proof.
  induction s as [|c s IH]; intro b; simpl; [auto|].
  destruct (is_alnum c) eqn:A.
  - rewrite (alnum_not_dash c A). simpl. rewrite A. intro H. right.
    destruct (IH false H) as [-> | Hs]; [reflexivity|exact Hs].
  - destruct (is_dash c) eqn:D; [|discriminate].
    destruct b; simpl; [discriminate|]. intro H.
    destruct (IH true H) as [-> | Hs]; [now left|].
    destruct (rstrip s =? "")%string eqn:E.
    + apply String.eqb_eq in E. rewrite E in Hs. discriminate.
    + right. simpl. now rewrite A, D.
Qed.

Lemma slug_is_dashed (s : string) :
  forall b, slug_from s b = true -> dashed_from s b = true.
Proof.
  induction s as [|c s IH]; intro b; simpl; [reflexivity|].
  destruct (is_alnum c); [apply IH|].
  destruct (is_dash c); [|discriminate].
  destruct b; simpl; [discriminate|apply IH].
Qed.

Lemma lstrip_slug (s : string) : is_slug s = true -> lstrip s = s.
Proof.
  unfold is_slug. destruct s as [|c s]; simpl; [reflexivity|].
  destruct (is_alnum c) eqn:A; [now rewrite (alnum_not_dash c A)|].
  destruct (is_dash c); discriminate.
Qed.

Lemma rstrip_fixes (s : string) :
  forall b, slug_from s b = true -> rstrip s = s.
Proof.
  induction s as [|c s IH]; intro b; simpl; [reflexivity|].
  destruct (is_alnum c) eqn:A.
  - rewrite (alnum_not_dash c A). simpl. intro H. now rewrite (IH false H).
  - destruct (is_dash c) eqn:D; [|discriminate].
    destruct b; simpl; [discriminate|]. intro H. rewrite (IH true H).
    destruct s as [|c' s]; [discriminate H|reflexivity].
Qed.

(** X14. Whatever the name and whatever [str.lower] makes of it, [slugify]
    returns a slug: a text that is not empty, made of the letters a-z, digits
    and dashes only, with no dash first or last and no two dashes in a row.
    It is 'icon' when nothing else is left. *)
Theorem slugify_gives_slug (lower : string -> string) (name : string) :
  is_slug (slugify lower name) = true /\
  (strip (collapse_dashes (replace_runs (lower name) false) false) = "" ->
   slugify lower name = "icon").
Proof.
  unfold slugify, strip.
  pose proof (replace_runs_dashed (lower name) false) as H.
  rewrite (collapse_dashed _ false H).
  apply lstrip_dashed in H.
  destruct (rstrip_slug _ true H) as [E|Hs].
  - rewrite E. simpl. split; reflexivity.
  - split.
    + destruct (rstrip (lstrip (replace_runs (lower name) false)) =? "")%string;
        [reflexivity|exact Hs].
    + intros ->. reflexivity.
Qed.

(** X15. [slugify] leaves a slug as it is, provided lower case does (as
    it does, a slug having no capital): so slugifying twice gives what
    slugifying once gives. *)
Theorem slugify_fixes_slugs (lower : string -> string) (s : string) :
  is_slug s = true -> lower s = s -> slugify lower s = s.
Proof.
  intros Hs Hl. unfold slugify, strip. rewrite Hl.
  pose proof (dashed_weaken s (slug_is_dashed s true Hs)) as Hd.
  rewrite (replace_runs_fixes s false Hd), (collapse_dashed s false Hd).
  rewrite (lstrip_slug s Hs), (rstrip_fixes s true Hs).
  destruct (s =? "")%string eqn:E; [|reflexivity].
  apply String.eqb_eq in E. subst s. discriminate Hs.
Qed.

Lemma slugify_fixes_slugs_witness :
  slugify lower_ascii "Cloud Flare  (DNS) #1!" = "cloud-flare-dns-1" /\
  slugify lower_ascii "cloud-flare-dns-1" = "cloud-flare-dns-1".
Proof.
  split; [reflexivity|].
  apply (slugify_fixes_slugs lower_ascii "cloud-flare-dns-1"); reflexivity.
Defined.

End IconsProofs.

(** ** The pauses of the agent *)

Module AgentLoopProofs.
Import AgentLoop.

Lemma seconds_into_minute_range (now : Q) :
  exists s, py_mod now 60 = Ret s /\ (0 <= s)%Q /\ (s < 60)%Q /\
            (s == now - 60 * inject_Z (Qfloor (now / 60)))%Q.
Proof.
  unfold py_mod. change (Qeq_bool 60 0) with false. cbv iota.
  exists (now - 60 * inject_Z (Qfloor (now / 60)))%Q. split; [reflexivity|].
  pose proof (Qfloor_le (now / 60)) as Hlo.
  pose proof (Qlt_floor (now / 60)) as Hhi.
  rewrite inject_Z_plus in Hhi. change (inject_Z 1) with 1%Q in Hhi.
  assert (E : (now == 60 * (now / 60))%Q) by field.
  set (x := (now / 60)%Q) in *. set (f := inject_Z (Qfloor x)) in *.
  split; [lra|]. split; [lra|]. reflexivity.
Qed.

(** X16. After every cycle the agent sleeps until the next whole minute:
    the pause is above 0 and at most 60 seconds, it ends on a multiple of 60
    seconds, and it does not depend on the configured interval or on how long
    the cycle took, except that an interval of 0 makes the unused computation
    of [sleep_time] raise, which ends the loop. *)
Theorem pause_until_next_minute (interval elapsed now : Q) :
  if Qeq_bool interval 0
  then exists e, pause_after_cycle interval elapsed now = Raise e
  else exists p,
         pause_after_cycle interval elapsed now = Ret p /\
         pause_after_cycle 60 0 now = Ret p /\
         (0 < p)%Q /\ (p <= 60)%Q /\
         exists k : Z, (now + p == 60 * inject_Z k)%Q.
Proof.
  unfold pause_after_cycle.
  destruct (Qeq_bool interval 0) eqn:E.
  - unfold py_mod at 1. rewrite E. simpl. eauto.
  - unfold py_mod at 1. rewrite E. cbn [bind].
    destruct (seconds_into_minute_range now) as (s & -> & H0 & H60 & Hs).
    cbn [bind]. eexists. split; [reflexivity|]. split; [reflexivity|].
    destruct (Qgtb s 0) eqn:G.
    + apply Qgtb_true in G. split; [lra|]. split; [lra|].
      exists (Qfloor (now / 60) + 1). rewrite inject_Z_plus.
      change (inject_Z 1) with 1%Q. lra.
    + apply Qgtb_false in G. split; [lra|]. split; [lra|].
      exists (Qfloor (now / 60) + 1). rewrite inject_Z_plus.
      change (inject_Z 1) with 1%Q. lra.
Qed.

End AgentLoopProofs.

(** ** Outcomes of the http and tcp probes *)

(** X19. For an http target whose request is answered, in both programs:
    the outcome is [offline] exactly when the status code is outside
    200..399, its error is then 'HTTP <code>' and is absent otherwise, and
    its details carry the status code in either case: any 1xx, 4xx or 5xx
    is a failure and any 2xx or 3xx a success, whatever the latency. *)
Theorem http_outcome (t : target) (o : observation) (now utc : string)
    (code : Z) (ct : option string) (elapsed : Q) :
  target_type t = "http" ->
  http_o o = HttpResponse code ct elapsed ->
  exists c a,
    App.check_target t o now = Ret c /\
    Agent.run_target t o utc = Ret a /\
    (App.status c = "offline" <-> ~ (200 <= code < 400)) /\
    (Agent.status a = "offline" <-> ~ (200 <= code < 400)) /\
    App.error c = (if (200 <=? code) && (code <? 400) then None
                   else Some ("HTTP " ++ str_of_Z code)) /\
    Agent.error a = App.error c /\
    (exists d, App.details c = Some d /\ assoc_last "status_code" d = Some (JInt code)) /\
    (exists d, Agent.details a = Some d /\ assoc_last "status_code" d = Some (JInt code)).
Proof.
  intros Hty Ho.
  unfold App.check_target, Agent.run_target, App.run_probe, Agent.run_probe.
  rewrite Hty, Ho. cbn [String.eqb Ascii.eqb Bool.eqb andb].
  unfold App.check_http, Agent.check_http.
  assert (R : (200 <=? code) && (code <? 400) = true <-> 200 <= code < 400).
  { rewrite andb_true_iff, Z.leb_le, Z.ltb_lt. tauto. }
  destruct ((200 <=? code) && (code <? 400)) eqn:E; cbn [bind];
    eexists; eexists; (split; [reflexivity|]); (split; [reflexivity|]);
    cbn [App.status App.error App.details Agent.status Agent.error Agent.details
         success latency perror pdetails].
  - rewrite app_status_offline, agent_status_offline.
    repeat split; try discriminate; try tauto;
      try (intro N; exfalso; apply N; now apply R);
      eexists; split; reflexivity.
  - rewrite app_status_offline, agent_status_offline.
    assert (N : ~ 200 <= code < 400) by (intro K; apply R in K; discriminate).
    repeat split; auto; eexists; split; reflexivity.
Qed.

Lemma http_outcome_witness :
  exists c a,
    App.check_target Sample.web Sample.quiet "2024-05-01T12:00:00" = Ret c /\
    Agent.run_target Sample.web Sample.quiet "2024-05-01T10:00:00+00:00" = Ret a /\
    App.error c = None /\ App.status c <> "offline".
Proof.
  destruct (http_outcome Sample.web Sample.quiet "2024-05-01T12:00:00"
              "2024-05-01T10:00:00+00:00" 200 (Some "text/html") 120
              eq_refl eq_refl)
    as (c & a & Hc & Ha & Hoff & _ & He & _).
  exists c, a. split; [exact Hc|]. split; [exact Ha|]. split; [exact He|].
  intro H. apply Hoff in H. apply H. lia.
Defined.

(** X20. For a tcp target whose connection attempt returns, in both
    programs: the outcome is [offline] exactly when [connect_ex] returns a
    code other than 0, and its error is then
    'Connection refused (error: <code>)', whatever the code stands for. *)
Theorem tcp_outcome (t : target) (o : observation) (now utc : string)
    (result : Z) (elapsed : Q) :
  target_type t = "tcp" ->
  tcp_o o = ConnectEx result elapsed ->
  exists c a,
    App.check_target t o now = Ret c /\
    Agent.run_target t o utc = Ret a /\
    (App.status c = "offline" <-> result <> 0) /\
    (Agent.status a = "offline" <-> result <> 0) /\
    App.error c = (if result =? 0 then None
                   else Some ("Connection refused (error: " ++ str_of_Z result ++ ")")) /\
    Agent.error a = App.error c.
Proof.
  intros Hty Ho.
  unfold App.check_target, Agent.run_target, App.run_probe, Agent.run_probe.
  rewrite Hty, Ho. cbn [String.eqb Ascii.eqb Bool.eqb andb].
  unfold App.check_tcp, Agent.check_tcp.
  destruct (result =? 0) eqn:E; cbn [bind];
    eexists; eexists; (split; [reflexivity|]); (split; [reflexivity|]);
    cbn [App.status App.error Agent.status Agent.error
         success latency perror pdetails];
    rewrite app_status_offline, agent_status_offline.
  - apply Z.eqb_eq in E. repeat split; try discriminate; congruence.
  - apply Z.eqb_neq in E. repeat split; auto.
Qed.

Lemma tcp_outcome_witness :
  exists c a,
    App.check_target Sample.svc Sample.quiet "2024-05-01T12:00:00" = Ret c /\
    Agent.run_target Sample.svc Sample.quiet "2024-05-01T10:00:00+00:00" = Ret a /\
    App.status c = "offline" /\
    App.error c = Some "Connection refused (error: 111)".
Proof.
  destruct (tcp_outcome Sample.svc Sample.quiet "2024-05-01T12:00:00"
              "2024-05-01T10:00:00+00:00" 111 (3 # 2) eq_refl eq_refl)
    as (c & a & Hc & Ha & Hoff & _ & He & _).
  exists c, a. split; [exact Hc|]. split; [exact Ha|].
  split; [apply Hoff; discriminate|exact He].
Defined.

(** * The claims that the code corrects *)

(** ** C1: the status rule and the recorded latency *)

(** C1 (as stated, refuted). Read on the [latency_ms] of the outcome, the
    status rule fails: an http request answered with 200 after 500.004 ms
    succeeded and is recorded with a latency of 500.00, which is not above
    500, and its status is [degraded], not [online]. *)
Lemma recorded_latency_breaks_rule : ~ rule_on_recorded_latency.
Proof.
  intro H.
  destruct (H Sample.web
              (Observation (PingExited 0 NoLatency)
                 (HttpResponse 200 None (500004 # 1000))
                 (ConnectEx 0 1) (DigExited 0 true 1))
              "2024-05-01T12:00:00" "2024-05-01T10:00:00+00:00"
              _ _ _ _ eq_refl eq_refl eq_refl eq_refl)
    as [(_ & Honline & _) _].
  assert (L : (50000 # 100 <= 500)%Q) by (unfold Qle; simpl; lia).
  specialize (Honline eq_refl L). discriminate Honline.
Qed.

(** C1 (amended). For every outcome of the check pipeline, whatever the
    protocol, the status follows from the check's success and the latency it
    measured, before that latency is rounded to two decimals for
    [latency_ms]: success with a measured latency above 500 ms gives
    [degraded], success with at most 500 ms gives [online], failure gives
    [offline], also for the outcome made for a check that raised. In terms of
    the recorded [latency_ms]: success with [latency_ms] above 500 gives
    [degraded], success with [latency_ms] below 500 gives [online], failure
    gives [offline]; at a recorded 500.00 the status is the one of the
    measured latency. *)
Theorem status_follows_measured_latency (t : target) (o : observation)
    (now utc : string) (rp ra : probe_result)
    (c : App.CheckResult) (a : Agent.check) :
  App.run_probe t o = Ret rp ->
  Agent.run_probe t o = Ret ra ->
  App.check_target t o now = Ret c ->
  Agent.run_target t o utc = Ret a ->
  (status_rule (success rp) (latency rp) (App.status c) /\
   status_rule (success rp) (latency rp)
     (App.status (Collector.finish_result t (Ret c) utc)) /\
   status_rule (success ra) (latency ra) (Agent.status a) /\
   forall e, App.status (Collector.finish_result t (Raise e) utc) = "offline") /\
  (App.latency_ms c = round2 (latency rp) /\
   Agent.latency_ms a = round2 (latency ra)) /\
  ((success rp = true -> (500 < App.latency_ms c)%Q -> App.status c = "degraded") /\
   (success rp = true -> (App.latency_ms c < 500)%Q -> App.status c = "online") /\
   (success rp = false -> App.status c = "offline")) /\
  ((success ra = true -> (500 < Agent.latency_ms a)%Q -> Agent.status a = "degraded") /\
   (success ra = true -> (Agent.latency_ms a < 500)%Q -> Agent.status a = "online") /\
   (success ra = false -> Agent.status a = "offline")).
Proof.
  intros Hp Ha Hc Hr.
  rewrite (app_check_target_ret t o now rp Hp) in Hc. injection Hc as <-.
  rewrite (agent_run_target_ret t o utc ra Ha) in Hr. injection Hr as <-.
  cbn [App.status App.latency_ms Agent.status Agent.latency_ms
       Collector.finish_result].
  pose proof (app_status_rule (success rp) (latency rp)) as Rp.
  pose proof (agent_status_rule (success ra) (latency ra)) as Ra.
  destruct (round2_near (latency rp)) as (_ & _ & _ & Hup & Hdown).
  destruct (round2_near (latency ra)) as (_ & _ & _ & Hup' & Hdown').
  split; [repeat split; try apply Rp; apply Ra|].
  split; [split; reflexivity|].
  destruct Rp as (Rd & Ro & Rf). destruct Ra as (Rd' & Ro' & Rf').
  split; (split; [|split]); auto.
  - intros S L. apply Ro; [exact S|]. apply Qlt_le_weak. auto.
  - intros S L. apply Ro'; [exact S|]. apply Qlt_le_weak. auto.
Qed.

Lemma status_follows_measured_latency_witness :
  exists c a,
    App.check_target Sample.web Sample.quiet "2024-05-01T12:00:00" = Ret c /\
    Agent.run_target Sample.web Sample.quiet "2024-05-01T10:00:00+00:00" = Ret a /\
    App.latency_ms c = round2 120 /\
    App.status c = "online" /\ Agent.status a = "online".
Proof.
  eexists. eexists. split; [reflexivity|]. split; [reflexivity|].
  destruct (status_follows_measured_latency Sample.web Sample.quiet
              "2024-05-01T12:00:00" "2024-05-01T10:00:00+00:00" _ _ _ _
              eq_refl eq_refl eq_refl eq_refl)
    as (_ & (Hl & _) & (_ & Hon & _) & (_ & Hon' & _)).
  split; [exact Hl|].
  split; [apply Hon|apply Hon']; reflexivity.
Defined.

(** ** C4: the records of a batch that are skipped *)

Module IngestRecords.
Import Collector.


Section WithPlatform.
Context `{Platform}.







End WithPlatform.



End IngestRecords.
